(** * Float Preview (ComfyUI-Mohseni-Kit): the viewer's synchronisation and
      caching engine, embedded from [float_preview.py].

    The Python module is modelled function by function.  Module-level
    helpers act on a [World] (the two JSON files, the image files, the
    console, the process table); the methods of [FloatWindow] act on a
    [Viewer], a window object together with the world it runs in.  Python
    exceptions are explicit: every operation returns an [outcome] and the
    state it leaves behind, which is kept when an exception is raised. *)

From Stdlib Require Import ZArith List String Ascii Bool Lia.
Import ListNotations.

Local Open Scope string_scope.
Local Open Scope list_scope.
Local Open Scope Z_scope.

(** ** Python values, exceptions and the effect monad *)

Module Py.

(** The exception classes the modelled code can meet. *)
Inductive exn : Type :=
| JSONDecodeError
| TypeError
| OverflowError
| AttributeError
| ZeroDivisionError
| IndexError
| ValueError
| OSError.

Definition exn_str (e : exn) : string :=
  match e with
  | JSONDecodeError => "JSONDecodeError"
  | TypeError => "TypeError"
  | OverflowError => "OverflowError"
  | AttributeError => "AttributeError"
  | ZeroDivisionError => "ZeroDivisionError"
  | IndexError => "IndexError"
  | ValueError => "ValueError"
  | OSError => "OSError"
  end.

Definition is_JSONDecodeError (e : exn) : bool :=
  match e with JSONDecodeError => true | _ => false end.

(** [except Exception]: every class above derives from [Exception]. *)
Definition is_Exception (e : exn) : bool := true.

Inductive outcome (A : Type) : Type :=
| Returned (a : A)
| Raised (e : exn).
Arguments Returned {A} a.
Arguments Raised {A} e.

(** A computation over a mutable state [S]; the state survives a raise. *)
Definition Eff (S A : Type) : Type := S -> outcome A * S.

Definition ret {S A} (a : A) : Eff S A := fun s => (Returned a, s).

Definition raise {S A} (e : exn) : Eff S A := fun s => (Raised e, s).

Definition bind {S A B} (m : Eff S A) (k : A -> Eff S B) : Eff S B :=
  fun s =>
    match m s with
    | (Returned a, s') => k a s'
    | (Raised e, s') => (Raised e, s')
    end.

Definition gets {S A} (f : S -> A) : Eff S A := fun s => (Returned (f s), s).

Definition modify {S} (f : S -> S) : Eff S unit := fun s => (Returned tt, f s).

(** [try: body / except <classes>: handler]. *)
Definition try_except {S A} (body : Eff S A) (classes : exn -> bool)
           (handler : exn -> Eff S A) : Eff S A :=
  fun s =>
    match body s with
    | (Returned a, s') => (Returned a, s')
    | (Raised e, s') => if classes e then handler e s' else (Raised e, s')
    end.

(** The values [json.loads] builds.  A JSON object becomes a [dict],
    kept as an association list in insertion order with distinct keys;
    a non-integral number is kept as its decimal mantissa and exponent. *)
#[warnings="-register-all"]
Inductive json : Type :=
| JNull
| JBool (b : bool)
| JInt (n : Z)
| JFloat (mantissa exponent : Z)
| JStr (s : string)
| JList (items : list json)
| JObj (fields : list (string * json)).

(** Truth value of a Python object, as [if x:] tests it. *)
Definition truthy (v : json) : bool :=
  match v with
  | JNull => false
  | JBool b => b
  | JInt n => negb (n =? 0)
  | JFloat m _ => negb (m =? 0)
  | JStr s => negb (s =? "")%string
  | JList items => match items with [] => false | _ => true end
  | JObj fields => match fields with [] => false | _ => true end
  end.

Fixpoint assoc {V} (k : string) (d : list (string * V)) : option V :=
  match d with
  | [] => None
  | (k', v) :: rest => if (k =? k')%string then Some v else assoc k rest
  end.

(** [d.get(key, default)] on a dict. *)
Definition dict_get {V} (key : string) (default : V) (d : list (string * V)) : V :=
  match assoc key d with
  | Some v => v
  | None => default
  end.

(** [settings.get(key, default)] on a value read from JSON: only a dict
    has the method. *)
Definition get {S} (settings : json) (key : string) (default : json) : Eff S json :=
  match settings with
  | JObj fields => ret (dict_get key default fields)
  | _ => raise AttributeError
  end.

(** [d[key] = value] on a dict read from JSON. *)
Fixpoint setitem {V} (k : string) (v : V) (d : list (string * V)) : list (string * V) :=
  match d with
  | [] => [(k, v)]
  | (k', v') :: rest =>
      if (k =? k')%string then (k', v) :: rest else (k', v') :: setitem k v rest
  end.

(** [str != obj] between a string and a value read from JSON. *)
Definition str_ne (s : string) (v : json) : bool :=
  match v with
  | JStr t => negb (s =? t)%string
  | _ => true
  end.

(** A plain [dict] with string keys, in insertion order. *)
Definition dict (V : Type) : Type := list (string * V).

(** [key in d]. *)
Definition contains_key {V} (k : string) (d : dict V) : bool :=
  match assoc k d with
  | Some _ => true
  | None => false
  end.

(** [len(d)] and [len(l)]. *)
Definition len {A} (l : list A) : Z := Z.of_nat (List.length l).

(** [d.popitem(last=...)] on a plain [dict]: the method takes no keyword
    argument (only [collections.OrderedDict.popitem] knows [last]), so
    the call raises TypeError and the dict is left as it was. *)
Definition dict_popitem_last {S V} (last : bool) (d : dict V) : Eff S (string * V) :=
  raise TypeError.

(** [l[i]] on a list, negative indices counting from the end. *)
Definition getitem {S A} (l : list A) (i : Z) : Eff S A :=
  let j := if i <? 0 then i + len l else i in
  if j <? 0 then raise IndexError
  else match nth_error l (Z.to_nat j) with
       | Some x => ret x
       | None => raise IndexError
       end.

(** [a != b] on two lists of strings. *)
Fixpoint list_eqb (a b : list string) : bool :=
  match a, b with
  | [], [] => true
  | x :: a', y :: b' => (x =? y)%string && list_eqb a' b'
  | _, _ => false
  end.

Definition list_ne (a b : list string) : bool := negb (list_eqb a b).

(** [a % b] on Python integers: floor modulo, an error on zero. *)
Definition mod_ {S} (a b : Z) : Eff S Z :=
  if b =? 0 then raise ZeroDivisionError else ret (a mod b).

End Py.

Import Py.

Declare Scope eff_scope.
Delimit Scope eff_scope with eff.
Notation "x <- m ;; k" := (bind m (fun x => k))
  (at level 100, m at next level, right associativity) : eff_scope.
Notation "m ;;; k" := (bind m (fun _ => k))
  (at level 100, right associativity) : eff_scope.
Local Open Scope eff_scope.

(** ** The world outside the window: files, console, processes *)

Module Env.

(** A file the module reads: absent, present but failing to read, or
    present with some content. *)
Inductive file (A : Type) : Type :=
| Missing
| Locked
| Holds (content : A).
Arguments Missing {A}.
Arguments Locked {A}.
Arguments Holds {A} content.

(** A text file as [json.loads] sees it: text it rejects, or text that
    encodes a document.  [json.loads] and [json.dumps] belong to the Python
    library, not to this module; a text is kept as the document it encodes. *)
Inductive text (A : Type) : Type :=
| Malformed
| Encodes (doc : A).
Arguments Malformed {A}.
Arguments Encodes {A} doc.

(** An image path on disk: no regular file there, or a file which the
    toolkit can decode or not, and whose first kilobyte hashes to
    [head_sha256] when it can be opened for reading; or a path the file
    system refuses to examine (a name too long, a directory on the way
    that may not be searched), on which [Path.exists] raises OSError. *)
Inductive image_file : Type :=
| NoFile
| Stored (decodes : bool) (head_sha256 : option string)
| Unreachable.

(** What [locale.getdefaultlocale()] finds: a language code and an
    encoding, either of which may be None, or a locale it does not know,
    on which it raises ValueError. *)
Inductive locale : Type :=
| Locale (language encoding : option string)
| UnknownLocale.

(** [image_paths_json] is the file at JSON_FILE_PATH, whose documents are
    lists of path strings; [settings_json] is the file at
    SETTINGS_FILE_PATH. *)
Record Disk : Type := {
  image_paths_json : file (text (list string));
  settings_json : file (text json);
  images : list (string * image_file);
  read_only : bool
}.

(** What the process does to the outside, newest first. *)
Inductive effect : Type :=
| Print (level message : string)
| Scaled (path : string) (width height : Z)
| Popen (argv : list string) (lc_all : string)
| ClipboardSet (path : string)
| SavedAs (path target : string).

Record World : Type := {
  disk : Disk;
  trace : list effect;
  procs : list (list string);
  popen_ok : bool;
  save_dialog : string;
  default_locale : locale
}.

Definition set_disk (d : Disk) (w : World) : World :=
  {| disk := d; trace := trace w; procs := procs w;
     popen_ok := popen_ok w; save_dialog := save_dialog w;
     default_locale := default_locale w |}.

Definition emit (e : effect) (w : World) : World :=
  {| disk := disk w; trace := e :: trace w; procs := procs w;
     popen_ok := popen_ok w; save_dialog := save_dialog w;
     default_locale := default_locale w |}.

Definition set_procs (p : list (list string)) (w : World) : World :=
  {| disk := disk w; trace := trace w; procs := p;
     popen_ok := popen_ok w; save_dialog := save_dialog w;
     default_locale := default_locale w |}.

Definition set_image_paths_json (f : file (text (list string))) (d : Disk) : Disk :=
  {| image_paths_json := f; settings_json := settings_json d;
     images := images d; read_only := read_only d |}.

Definition set_settings_json (f : file (text json)) (d : Disk) : Disk :=
  {| image_paths_json := image_paths_json d; settings_json := f;
     images := images d; read_only := read_only d |}.

Definition JSON_FILE_PATH : string := "image_paths.json".
Definition SETTINGS_FILE_PATH : string := "float_preview_settings.json".

(** [log_message(message, level)]: one line on the console. *)
Definition log_message (message level : string) : Eff World unit :=
  modify (emit (Print level message)).

(** [safe_exists(file_path)] for one of the two JSON files. *)
Definition safe_exists {A} (f : file A) : bool :=
  match f with
  | Missing => false
  | Locked | Holds _ => true
  end.

(** What the disk has at an image path. *)
Definition image_at (d : Disk) (path : string) : image_file :=
  match assoc path (images d) with
  | Some f => f
  | None => NoFile
  end.

(** What [safe_exists(file_path)] answers for an image path when it
    answers; [safe_exists_path] below is the call, which raises on the
    paths of [stat_fails]. *)
Definition safe_exists_image (d : Disk) (path : string) : bool :=
  match image_at d path with
  | NoFile | Unreachable => false
  | Stored _ _ => true
  end.

(** The paths on which [Path.exists] raises. *)
Definition stat_fails (d : Disk) (path : string) : bool :=
  match image_at d path with
  | Unreachable => true
  | _ => false
  end.

(** [safe_exists(file_path)] as a call: it raises where the file system
    refuses to examine the path. *)
Definition safe_exists_path (path : string) : Eff World bool :=
  d <- gets disk ;;
  if stat_fails d path then raise OSError
  else ret (safe_exists_image d path).

(** [safe_read_file(file_path, default_data)]. *)
Definition safe_read_file {A} (file_path : string) (slot : Disk -> file A)
           (default_data : A) : Eff World A :=
  f <- gets (fun w => slot (disk w)) ;;
  if negb (safe_exists f) then ret default_data
  else
    try_except
      (match f with
       | Holds content => ret content
       | _ => raise OSError
       end)
      is_Exception
      (fun e =>
         log_message ("Error reading " ++ file_path ++ ": " ++ exn_str e) "warning" ;;;
         ret default_data).

(** [safe_write_file(file_path, content)]. *)
Definition safe_write_file {A} (file_path : string)
           (store : file A -> Disk -> Disk) (content : A) : Eff World unit :=
  try_except
    (ro <- gets (fun w => read_only (disk w)) ;;
     if ro then raise OSError
     else modify (fun w => set_disk (store (Holds content) (disk w)) w))
    is_Exception
    (fun e =>
       log_message ("Error writing to " ++ file_path ++ ": " ++ exn_str e) "error").

(** [safe_remove(file_path)] on the path store. *)
Definition safe_remove_image_paths : Eff World unit :=
  f <- gets (fun w => image_paths_json (disk w)) ;;
  if safe_exists f then
    ro <- gets (fun w => read_only (disk w)) ;;
    if ro then raise OSError
    else modify (fun w => set_disk (set_image_paths_json Missing (disk w)) w)
  else ret tt.

(** [json.loads(data)]: [JSONDecodeError] on text it rejects, the
    document otherwise.  The path store is followed as a list of strings
    and the settings as a JSON value: text that parses to something else
    than a list of strings is not among the contents of the path store
    considered here. *)
Definition json_loads {S A} (data : text A) : Eff S A :=
  match data with
  | Encodes doc => ret doc
  | Malformed => raise JSONDecodeError
  end.

(** [json.dumps(obj, ...)]. *)
Definition json_dumps {A} (obj : A) : text A := Encodes obj.

(** [calculate_image_hash(image_path)]: [None] or the hex digest. *)
Definition calculate_image_hash (image_path : string) : Eff World (option string) :=
  present <- safe_exists_path image_path ;;
  if negb present then ret None
  else
    d <- gets disk ;;
    try_except
      (match image_at d image_path with
       | Stored _ (Some digest) => ret (Some digest)
       | _ => raise OSError
       end)
      is_Exception
      (fun e =>
         log_message ("Error reading " ++ image_path ++ ": " ++ exn_str e) "warning" ;;;
         ret None).

(** [locale.getdefaultlocale()]. *)
Definition getdefaultlocale : Eff World locale :=
  l <- gets default_locale ;;
  match l with
  | UnknownLocale => raise ValueError
  | Locale _ _ => ret l
  end.

(** [name in locale.getdefaultlocale()]: membership in the pair. *)
Definition locale_has (name : string) (l : locale) : bool :=
  match l with
  | Locale language encoding =>
      match language with Some s => (name =? s)%string | None => false end
      || match encoding with Some s => (name =? s)%string | None => false end
  | UnknownLocale => false
  end.

(** [script_name in cmdline]. *)
Definition contains (needle hay : string) : bool :=
  match index 0 needle hay with
  | Some _ => true
  | None => false
  end.

Definition script_name : string := "float_preview.py".

(** [is_window_running()]: a scan of the process table. *)
Fixpoint scan_processes (ps : list (list string)) : bool :=
  match ps with
  | [] => false
  | argv :: rest =>
      let cmdline := match argv with [] => "" | _ => concat " " argv end in
      if contains script_name cmdline || contains "float_window" cmdline then true
      else scan_processes rest
  end.

Definition is_window_running : Eff World bool :=
  ps <- gets procs ;; ret (scan_processes ps).

(** [cleanup_json_file()], registered with [atexit]. *)
Definition cleanup_json_file : Eff World unit :=
  f <- gets (fun w => image_paths_json (disk w)) ;;
  if safe_exists f then
    try_except safe_remove_image_paths is_Exception
      (fun e =>
         log_message ("Failed to delete " ++ JSON_FILE_PATH ++ ": " ++ exn_str e) "warning")
  else ret tt.

End Env.

Import Env.

(** ** The toolkit, as far as the window uses it *)

Module Qt.

(** A pixmap is known by where it comes from: decoded from a file, or a
    pixmap scaled into a [width] x [height] box (aspect ratio kept). *)
Inductive QPixmap : Type :=
| FromFile (path : string)
| Scaling (source : QPixmap) (width height : Z).

(** [QtGui.QPixmap(path)]: [None] stands for a pixmap whose [isNull()]
    is true. *)
Definition QPixmap_load (d : Disk) (path : string) : option QPixmap :=
  match image_at d path with
  | Stored true _ => Some (FromFile path)
  | _ => None
  end.

Definition QSize : Type := (Z * Z)%type.

Definition QSize_eqb (a b : QSize) : bool :=
  (fst a =? fst b) && (snd a =? snd b).

(** An [int] parameter of a toolkit method: a Python integer that fits a
    C int (a bool counts as one); other objects are a TypeError. *)
Definition as_int {S} (v : json) : Eff S Z :=
  match v with
  | JInt n =>
      if (-2147483648 <=? n) && (n <=? 2147483647) then ret n
      else raise OverflowError
  | JBool b => ret (if b then 1 else 0)
  | _ => raise TypeError
  end.

(** A [bool] parameter of a toolkit method. *)
Definition as_bool {S} (v : json) : Eff S bool :=
  match v with
  | JBool b => ret b
  | JInt n => ret (negb (n =? 0))
  | _ => raise TypeError
  end.

Inductive Key : Type :=
| Key_Escape | Key_S | Key_C | Key_T
| Key_Right | Key_Down | Key_Left | Key_Up
| Key_Other.

Inductive KeyboardModifier : Type :=
| NoModifier
| ControlModifier
| OtherModifiers.

Record QKeyEvent : Type := {
  key : Key;
  modifiers : KeyboardModifier
}.

Definition Key_eqb (a b : Key) : bool :=
  match a, b with
  | Key_Escape, Key_Escape | Key_S, Key_S | Key_C, Key_C | Key_T, Key_T
  | Key_Right, Key_Right | Key_Down, Key_Down | Key_Left, Key_Left
  | Key_Up, Key_Up | Key_Other, Key_Other => true
  | _, _ => false
  end.

Definition is_Control (m : KeyboardModifier) : bool :=
  match m with ControlModifier => true | _ => false end.

End Qt.

Import Qt.

(** ** The window object *)

(** The attributes of [FloatWindow] the engine reads and writes.  The
    window geometry is the one last requested or reported; the label's
    pixmap and the indicator stand for the two widgets.  The indicator
    text is kept as the two numbers its f-string prints. *)
Record FloatWindow : Type := {
  temp_image_paths : list string;
  current_index : Z;
  pixmap_cache : dict QPixmap;
  scaled_image_cache : dict QPixmap;
  current_label_size : option QSize;
  max_cache_size : Z;
  closing : bool;
  always_on_top : json;
  win_x : Z;
  win_y : Z;
  win_width : Z;
  win_height : Z;
  label_pixmap : option QPixmap;
  indicator_visible : bool;
  indicator_text : option (Z * Z);
  timer_active : bool
}.

Definition set_temp_image_paths (v : list string) (w : FloatWindow) : FloatWindow :=
  {| temp_image_paths := v; current_index := current_index w;
     pixmap_cache := pixmap_cache w; scaled_image_cache := scaled_image_cache w;
     current_label_size := current_label_size w; max_cache_size := max_cache_size w;
     closing := closing w; always_on_top := always_on_top w;
     win_x := win_x w; win_y := win_y w; win_width := win_width w;
     win_height := win_height w; label_pixmap := label_pixmap w;
     indicator_visible := indicator_visible w; indicator_text := indicator_text w;
     timer_active := timer_active w |}.

Definition set_current_index (v : Z) (w : FloatWindow) : FloatWindow :=
  {| temp_image_paths := temp_image_paths w; current_index := v;
     pixmap_cache := pixmap_cache w; scaled_image_cache := scaled_image_cache w;
     current_label_size := current_label_size w; max_cache_size := max_cache_size w;
     closing := closing w; always_on_top := always_on_top w;
     win_x := win_x w; win_y := win_y w; win_width := win_width w;
     win_height := win_height w; label_pixmap := label_pixmap w;
     indicator_visible := indicator_visible w; indicator_text := indicator_text w;
     timer_active := timer_active w |}.

Definition set_pixmap_cache (v : dict QPixmap) (w : FloatWindow) : FloatWindow :=
  {| temp_image_paths := temp_image_paths w; current_index := current_index w;
     pixmap_cache := v; scaled_image_cache := scaled_image_cache w;
     current_label_size := current_label_size w; max_cache_size := max_cache_size w;
     closing := closing w; always_on_top := always_on_top w;
     win_x := win_x w; win_y := win_y w; win_width := win_width w;
     win_height := win_height w; label_pixmap := label_pixmap w;
     indicator_visible := indicator_visible w; indicator_text := indicator_text w;
     timer_active := timer_active w |}.

Definition set_scaled_image_cache (v : dict QPixmap) (w : FloatWindow) : FloatWindow :=
  {| temp_image_paths := temp_image_paths w; current_index := current_index w;
     pixmap_cache := pixmap_cache w; scaled_image_cache := v;
     current_label_size := current_label_size w; max_cache_size := max_cache_size w;
     closing := closing w; always_on_top := always_on_top w;
     win_x := win_x w; win_y := win_y w; win_width := win_width w;
     win_height := win_height w; label_pixmap := label_pixmap w;
     indicator_visible := indicator_visible w; indicator_text := indicator_text w;
     timer_active := timer_active w |}.

Definition set_current_label_size (v : option QSize) (w : FloatWindow) : FloatWindow :=
  {| temp_image_paths := temp_image_paths w; current_index := current_index w;
     pixmap_cache := pixmap_cache w; scaled_image_cache := scaled_image_cache w;
     current_label_size := v; max_cache_size := max_cache_size w;
     closing := closing w; always_on_top := always_on_top w;
     win_x := win_x w; win_y := win_y w; win_width := win_width w;
     win_height := win_height w; label_pixmap := label_pixmap w;
     indicator_visible := indicator_visible w; indicator_text := indicator_text w;
     timer_active := timer_active w |}.

Definition set_closing (v : bool) (w : FloatWindow) : FloatWindow :=
  {| temp_image_paths := temp_image_paths w; current_index := current_index w;
     pixmap_cache := pixmap_cache w; scaled_image_cache := scaled_image_cache w;
     current_label_size := current_label_size w; max_cache_size := max_cache_size w;
     closing := v; always_on_top := always_on_top w;
     win_x := win_x w; win_y := win_y w; win_width := win_width w;
     win_height := win_height w; label_pixmap := label_pixmap w;
     indicator_visible := indicator_visible w; indicator_text := indicator_text w;
     timer_active := timer_active w |}.

Definition set_always_on_top (v : json) (w : FloatWindow) : FloatWindow :=
  {| temp_image_paths := temp_image_paths w; current_index := current_index w;
     pixmap_cache := pixmap_cache w; scaled_image_cache := scaled_image_cache w;
     current_label_size := current_label_size w; max_cache_size := max_cache_size w;
     closing := closing w; always_on_top := v;
     win_x := win_x w; win_y := win_y w; win_width := win_width w;
     win_height := win_height w; label_pixmap := label_pixmap w;
     indicator_visible := indicator_visible w; indicator_text := indicator_text w;
     timer_active := timer_active w |}.

Definition set_size (width height : Z) (w : FloatWindow) : FloatWindow :=
  {| temp_image_paths := temp_image_paths w; current_index := current_index w;
     pixmap_cache := pixmap_cache w; scaled_image_cache := scaled_image_cache w;
     current_label_size := current_label_size w; max_cache_size := max_cache_size w;
     closing := closing w; always_on_top := always_on_top w;
     win_x := win_x w; win_y := win_y w; win_width := width;
     win_height := height; label_pixmap := label_pixmap w;
     indicator_visible := indicator_visible w; indicator_text := indicator_text w;
     timer_active := timer_active w |}.

Definition set_pos (x y : Z) (w : FloatWindow) : FloatWindow :=
  {| temp_image_paths := temp_image_paths w; current_index := current_index w;
     pixmap_cache := pixmap_cache w; scaled_image_cache := scaled_image_cache w;
     current_label_size := current_label_size w; max_cache_size := max_cache_size w;
     closing := closing w; always_on_top := always_on_top w;
     win_x := x; win_y := y; win_width := win_width w;
     win_height := win_height w; label_pixmap := label_pixmap w;
     indicator_visible := indicator_visible w; indicator_text := indicator_text w;
     timer_active := timer_active w |}.

Definition set_label_pixmap (v : option QPixmap) (w : FloatWindow) : FloatWindow :=
  {| temp_image_paths := temp_image_paths w; current_index := current_index w;
     pixmap_cache := pixmap_cache w; scaled_image_cache := scaled_image_cache w;
     current_label_size := current_label_size w; max_cache_size := max_cache_size w;
     closing := closing w; always_on_top := always_on_top w;
     win_x := win_x w; win_y := win_y w; win_width := win_width w;
     win_height := win_height w; label_pixmap := v;
     indicator_visible := indicator_visible w; indicator_text := indicator_text w;
     timer_active := timer_active w |}.

Definition set_indicator (visible : bool) (text : option (Z * Z)) (w : FloatWindow) : FloatWindow :=
  {| temp_image_paths := temp_image_paths w; current_index := current_index w;
     pixmap_cache := pixmap_cache w; scaled_image_cache := scaled_image_cache w;
     current_label_size := current_label_size w; max_cache_size := max_cache_size w;
     closing := closing w; always_on_top := always_on_top w;
     win_x := win_x w; win_y := win_y w; win_width := win_width w;
     win_height := win_height w; label_pixmap := label_pixmap w;
     indicator_visible := visible; indicator_text := text;
     timer_active := timer_active w |}.

Definition set_timer_active (v : bool) (w : FloatWindow) : FloatWindow :=
  {| temp_image_paths := temp_image_paths w; current_index := current_index w;
     pixmap_cache := pixmap_cache w; scaled_image_cache := scaled_image_cache w;
     current_label_size := current_label_size w; max_cache_size := max_cache_size w;
     closing := closing w; always_on_top := always_on_top w;
     win_x := win_x w; win_y := win_y w; win_width := win_width w;
     win_height := win_height w; label_pixmap := label_pixmap w;
     indicator_visible := indicator_visible w; indicator_text := indicator_text w;
     timer_active := v |}.

(** A running window with the world around it. *)
Record Viewer : Type := {
  self : FloatWindow;
  env : World
}.

Definition on_self (f : FloatWindow -> FloatWindow) : Eff Viewer unit :=
  modify (fun v => {| self := f (self v); env := env v |}).

Definition in_env {A} (m : Eff World A) : Eff Viewer A :=
  fun v =>
    let (r, e) := m (env v) in
    (r, {| self := self v; env := e |}).

Definition attr {A} (f : FloatWindow -> A) : Eff Viewer A :=
  gets (fun v => f (self v)).

(** ** The methods of [FloatWindow] *)

(** The toolkit keeps the size of a widget between its minimum size,
    (0, 0), and its maximum size, QWIDGETSIZE_MAX in each direction. *)
Definition qt_bound (n : Z) : Z := Z.max 0 (Z.min n 16777215).

(** [self.resize(w, h)] and [self.move(x, y)]: both arguments are
    converted before the geometry changes, and a size is bounded. *)
Definition resize (w h : json) : Eff Viewer unit :=
  w' <- as_int w ;;
  h' <- as_int h ;;
  on_self (set_size (qt_bound w') (qt_bound h')).

Definition move (x y : json) : Eff Viewer unit :=
  x' <- as_int x ;;
  y' <- as_int y ;;
  on_self (set_pos x' y').

(** The text [{}] and the text [[]], the two defaults handed to
    [safe_read_file]. *)
Definition empty_object_text : text json := Encodes (JObj []).
Definition empty_list_text : text (list string) := Encodes [].

Definition load_settings : Eff Viewer unit :=
  settings_data <- in_env (safe_read_file SETTINGS_FILE_PATH settings_json
                                          empty_object_text) ;;
  try_except
    (settings <- json_loads settings_data ;;
     on_top <- get settings "always_on_top" (JBool false) ;;
     on_self (set_always_on_top on_top) ;;;
     width <- get settings "width" (JInt 600) ;;
     height <- get settings "height" (JInt 600) ;;
     resize width height ;;;
     x <- get settings "x" (JInt 100) ;;
     y <- get settings "y" (JInt 100) ;;
     move x y)
    is_JSONDecodeError
    (fun _ =>
       in_env (log_message "Failed to load settings file. Using default settings."
                           "warning") ;;;
       on_self (set_always_on_top (JBool false)) ;;;
       resize (JInt 600) (JInt 600) ;;;
       move (JInt 100) (JInt 100)).

Definition hash_json (h : option string) : json :=
  match h with
  | Some digest => JStr digest
  | None => JNull
  end.

Definition save_settings : Eff Viewer unit :=
  paths <- attr temp_image_paths ;;
  first_image_hash <-
    match paths with
    | first :: _ => in_env (calculate_image_hash first)
    | [] => ret None
    end ;;
  w <- gets self ;;
  let settings :=
    JObj [("always_on_top", always_on_top w);
          ("x", JInt (win_x w)); ("y", JInt (win_y w));
          ("width", JInt (win_width w)); ("height", JInt (win_height w));
          ("first_image_hash", hash_json first_image_hash)] in
  try_except
    (in_env (safe_write_file SETTINGS_FILE_PATH set_settings_json
                             (json_dumps settings)))
    is_Exception
    (fun _ => ret tt).

(** The loop of [check_for_existing_images] over the stored paths: it
    stops with [image_existence = False] at the first path that is no
    file or gives a null pixmap, and [safe_exists] raises out of it on a
    path that cannot be examined. *)
Fixpoint check_images (paths : list string) : Eff World bool :=
  match paths with
  | [] => ret true
  | temp_image :: rest =>
      present <- safe_exists_path temp_image ;;
      if negb present then ret false
      else
        d <- gets disk ;;
        match QPixmap_load d temp_image with
        | None => ret false
        | Some _ => check_images rest
        end
  end.

(** What the loop answers when it examines every path it meets. *)
Fixpoint image_existence (d : Disk) (paths : list string) : bool :=
  match paths with
  | [] => true
  | temp_image :: rest =>
      if negb (safe_exists_image d temp_image) then false
      else
        match QPixmap_load d temp_image with
        | None => false
        | Some _ => image_existence d rest
        end
  end.

(** Truth value of what [calculate_image_hash] returns. *)
Definition hash_truthy (h : option string) : bool :=
  match h with
  | Some digest => negb (digest =? "")%string
  | None => false
  end.

Definition hash_ne (h : option string) (stored : json) : bool :=
  match h with
  | Some digest => str_ne digest stored
  | None => match stored with JNull => false | _ => true end
  end.

Definition check_for_existing_images : Eff Viewer unit :=
  settings_data <- in_env (safe_read_file SETTINGS_FILE_PATH settings_json
                                          empty_object_text) ;;
  stored_hash <-
    try_except
      (settings <- json_loads settings_data ;;
       get settings "first_image_hash" JNull)
      is_JSONDecodeError
      (fun _ =>
         in_env (log_message
                   "Failed to load settings.json. Continuing without hash check."
                   "warning") ;;;
         ret JNull) ;;
  temp_image_paths_data <- in_env (safe_read_file JSON_FILE_PATH image_paths_json
                                                  empty_list_text) ;;
  parsed <-
    try_except
      (paths <- json_loads temp_image_paths_data ;; ret (Some paths))
      is_JSONDecodeError
      (fun _ =>
         in_env (log_message "Failed to parse image_paths.json. Resetting paths."
                             "warning") ;;;
         ret None) ;;
  match parsed with
  | None => ret tt
  | Some [] => ret tt
  | Some (first :: others) =>
      exist <- in_env (check_images (first :: others)) ;;
      mismatch <-
        (if exist && truthy stored_hash then
           current_hash <- in_env (calculate_image_hash first) ;;
           ret (hash_truthy current_hash && hash_ne current_hash stored_hash)
         else ret false) ;;
      if mismatch then ret tt
      else if exist then
        on_self (set_temp_image_paths (first :: others)) ;;;
        on_self (set_current_index 0)
      else ret tt
  end.

Definition clear_cache : Eff Viewer unit :=
  on_self (set_pixmap_cache []) ;;;
  on_self (set_scaled_image_cache []).

Definition load_pixmap (path : string) : Eff Viewer (option QPixmap) :=
  cache <- attr pixmap_cache ;;
  match assoc path cache with
  | Some pixmap => ret (Some pixmap)
  | None =>
      d <- gets (fun v => disk (env v)) ;;
      match QPixmap_load d path with
      | None =>
          in_env (log_message ("Failed to load image: " ++ path) "warning") ;;;
          ret None
      | Some pixmap =>
          bound <- attr max_cache_size ;;
          (if len cache >=? bound then
             _ <- dict_popitem_last false cache ;; ret tt
           else ret tt) ;;;
          cache' <- attr pixmap_cache ;;
          on_self (set_pixmap_cache (setitem path pixmap cache')) ;;;
          ret (Some pixmap)
      end
  end.

(** [update_image()].  [label_size] is what [self.label.size()] answers
    when the method asks: the label's geometry is the toolkit's business
    (layout, [adjustSize]) and reaches the method as an input. *)
Definition update_image (label_size : QSize) : Eff Viewer unit :=
  is_closing <- attr closing ;;
  paths <- attr temp_image_paths ;;
  if is_closing || match paths with [] => true | _ => false end then ret tt
  else
    index <- attr current_index ;;
    index' <- mod_ index (len paths) ;;
    on_self (set_current_index index') ;;;
    path <- getitem paths index' ;;
    cache <- attr scaled_image_cache ;;
    last_size <- attr current_label_size ;;
    scaled_pixmap <-
      match assoc path cache,
            match last_size with
            | Some s => QSize_eqb s label_size
            | None => false
            end with
      | Some scaled, true => ret (Some scaled)
      | _, _ =>
          d <- gets (fun v => disk (env v)) ;;
          match QPixmap_load d path with
          | None =>
              in_env (log_message ("Failed to load image: " ++ path) "warning") ;;;
              ret None
          | Some pixmap =>
              width <- attr win_width ;;
              height <- attr win_height ;;
              in_env (modify (emit (Scaled path width height))) ;;;
              let scaled := Scaling pixmap width height in
              on_self (set_scaled_image_cache (setitem path scaled cache)) ;;;
              on_self (set_current_label_size (Some label_size)) ;;;
              ret (Some scaled)
          end
      end ;;
    match scaled_pixmap with
    | None => ret tt
    | Some scaled =>
        on_self (set_label_pixmap (Some scaled)) ;;;
        if len paths >? 1 then
          on_self (set_indicator true (Some (index' + 1, len paths)))
        else
          hidden_text <- attr indicator_text ;;
          on_self (set_indicator false hidden_text)
    end.

Definition check_for_updates (label_size : QSize) : Eff Viewer unit :=
  store <- gets (fun v => image_paths_json (disk (env v))) ;;
  if negb (safe_exists store) then ret tt
  else
    image_paths_data <- in_env (safe_read_file JSON_FILE_PATH image_paths_json
                                               empty_list_text) ;;
    parsed <-
      try_except
        (paths <- json_loads image_paths_data ;; ret (Some paths))
        is_JSONDecodeError
        (fun _ => in_env (log_message "Invalid JSON content" "error") ;;; ret None) ;;
    match parsed with
    | None => ret tt
    | Some new_image_paths =>
        current <- attr temp_image_paths ;;
        if list_ne new_image_paths current then
          on_self (set_scaled_image_cache []) ;;;
          clear_cache ;;;
          on_self (set_temp_image_paths new_image_paths) ;;;
          on_self (set_current_index 0) ;;;
          update_image label_size
        else ret tt
    end.

(** [resizeEvent(event)]: the toolkit has already given the window its
    new size when the handler runs. *)
Definition resizeEvent (label_size : QSize) : Eff Viewer unit :=
  on_self (set_scaled_image_cache []) ;;;
  update_image label_size.

(** [update_always_on_top()]: [setWindowFlag] converts its second
    argument to a [bool]; the flag itself and the [self.show()] that
    follows change what the window system displays, which the window
    record does not follow. *)
Definition update_always_on_top : Eff Viewer unit :=
  flag <- attr always_on_top ;;
  _ <- as_bool flag ;;
  ret tt.

(** [self.always_on_top_action.setChecked(self.always_on_top)]. *)
Definition always_on_top_action_setChecked : Eff Viewer unit :=
  flag <- attr always_on_top ;;
  _ <- as_bool flag ;;
  ret tt.

Definition str_bool (v : json) : string :=
  if truthy v then "True" else "False".

Definition save_always_on_top_state : Eff Viewer unit :=
  settings_data <- in_env (safe_read_file SETTINGS_FILE_PATH settings_json
                                          empty_object_text) ;;
  settings <-
    try_except
      (json_loads settings_data)
      is_JSONDecodeError
      (fun _ =>
         in_env (log_message "Failed to read settings.json. Creating a new one."
                             "warning") ;;;
         ret (JObj [])) ;;
  flag <- attr always_on_top ;;
  settings' <-
    match settings with
    | JObj fields => ret (JObj (setitem "always_on_top" flag fields))
    | _ => raise TypeError
    end ;;
  try_except
    (in_env (safe_write_file SETTINGS_FILE_PATH set_settings_json
                             (json_dumps settings')) ;;;
     in_env (log_message
               ("'Always on Top' set to ❮ " ++ str_bool flag
                ++ " ❯ and saved successfully.") "success"))
    is_Exception
    (fun e =>
       in_env (log_message ("Failed to save 'Always on Top' state: " ++ exn_str e)
                           "error")).

Definition toggle_always_on_top : Eff Viewer unit :=
  flag <- attr always_on_top ;;
  on_self (set_always_on_top (JBool (negb (truthy flag)))) ;;;
  always_on_top_action_setChecked ;;;
  update_always_on_top ;;;
  save_always_on_top_state.

Definition closeEvent : Eff Viewer unit :=
  on_self (set_closing true) ;;;
  save_settings ;;;
  on_self (set_timer_active false) ;;;
  clear_cache ;;;
  in_env (log_message "Float window closed. Settings saved." "info").

(** [QPixmap(current_image_path).save(save_path)] writes a file at a
    path the user chooses in the dialog.  The [Disk] record follows only
    the two JSON files and the images by the paths the program reads, so
    the call is recorded in the trace as [SavedAs] and the disk record is
    not updated: nothing may be concluded from it about the files of the
    disk after a save.  The result of [save] is dropped by the source,
    which logs success in any case. *)
Definition save_image : Eff Viewer unit :=
  index <- attr current_index ;;
  paths <- attr temp_image_paths ;;
  if (0 <=? index) && (index <? len paths) then
    current_image_path <- getitem paths index ;;
    save_path <- gets (fun v => save_dialog (env v)) ;;
    if (save_path =? "")%string then
      in_env (log_message "Save operation canceled." "info")
    else
      in_env (modify (emit (SavedAs current_image_path save_path))) ;;;
      in_env (log_message ("Image saved to " ++ save_path) "success")
  else ret tt.

Definition copy_to_clipboard : Eff Viewer unit :=
  index <- attr current_index ;;
  paths <- attr temp_image_paths ;;
  if (0 <=? index) && (index <? len paths) then
    current_image_path <- getitem paths index ;;
    in_env (modify (emit (ClipboardSet current_image_path))) ;;;
    in_env (log_message "Image copied to clipboard." "success")
  else ret tt.

Definition keyPressEvent (event : QKeyEvent) (label_size : QSize) : Eff Viewer unit :=
  if Key_eqb (key event) Key_Escape then closeEvent
  else if Key_eqb (key event) Key_S && is_Control (modifiers event) then save_image
  else if Key_eqb (key event) Key_C && is_Control (modifiers event) then
    copy_to_clipboard
  else if Key_eqb (key event) Key_T && is_Control (modifiers event) then
    toggle_always_on_top
  else if Key_eqb (key event) Key_Right || Key_eqb (key event) Key_Down then
    index <- attr current_index ;;
    paths <- attr temp_image_paths ;;
    index' <- mod_ (index + 1) (len paths) ;;
    on_self (set_current_index index') ;;;
    update_image label_size
  else if Key_eqb (key event) Key_Left || Key_eqb (key event) Key_Up then
    index <- attr current_index ;;
    paths <- attr temp_image_paths ;;
    index' <- mod_ (index - 1) (len paths) ;;
    on_self (set_current_index index') ;;;
    update_image label_size
  else ret tt.

(** The object as [__init__] assigns its first attributes; the ones
    assigned further down start at a placeholder. *)
Definition new_window (paths : list string) : FloatWindow :=
  {| temp_image_paths := paths; current_index := 0;
     pixmap_cache := []; scaled_image_cache := [];
     current_label_size := None; max_cache_size := 50;
     closing := false; always_on_top := JBool false;
     win_x := 0; win_y := 0; win_width := 0; win_height := 0;
     label_pixmap := None; indicator_visible := true; indicator_text := None;
     timer_active := false |}.

(** The body of [FloatWindow.__init__] after the first assignments. *)
Definition init_body (label_size : QSize) : Eff Viewer unit :=
  load_settings ;;;
  on_self (fun w => set_size (qt_bound (Z.max 300 (win_width w)))
                             (qt_bound (Z.max 300 (win_height w))) w) ;;;
  on_self (set_closing false) ;;;
  update_always_on_top ;;;
  check_for_existing_images ;;;
  always_on_top_action_setChecked ;;;
  on_self (set_timer_active true) ;;;
  update_image label_size.

(** ** The producer's entry point and the viewer's main function *)

(** What a caller may hand to [open_float_window]. *)
Inductive pyvalue : Type :=
| PyNone
| PyBool (b : bool)
| PyInt (n : Z)
| PyStr (s : string)
| PyTuple (items : list string)
| PyList (items : list string).

Definition isinstance_list (v : pyvalue) : bool :=
  match v with
  | PyList _ => true
  | _ => false
  end.

Definition viewer_argv : list string := ["python"; script_name; "float_window"].

Definition Popen (argv : list string) (lc_all : string) : Eff World unit :=
  ok <- gets popen_ok ;;
  if ok then
    modify (emit (Env.Popen argv lc_all)) ;;;
    modify (fun w => set_procs (argv :: procs w) w)
  else raise OSError.

Definition open_float_window (temp_image_paths : pyvalue) : Eff World unit :=
  if negb (isinstance_list temp_image_paths) then
    log_message "Invalid image paths provided. Expected a list." "error"
  else
    match temp_image_paths with
    | PyList paths =>
        written <-
          try_except
            (safe_write_file JSON_FILE_PATH set_image_paths_json (json_dumps paths) ;;;
             ret true)
            is_Exception
            (fun e =>
               log_message ("Failed to write image paths to JSON: " ++ exn_str e)
                           "error" ;;;
               ret false) ;;
        if written then
          running <- is_window_running ;;
          if running then log_message "Updating existing float window..." "info"
          else
            log_message "Starting new float window process..." "process" ;;;
            l <- getdefaultlocale ;;
            let lc_all := if locale_has "UTF-8" l then "C.UTF-8" else "en_US.UTF-8" in
            try_except (Popen viewer_argv lc_all) is_Exception
              (fun e =>
                 log_message ("Failed to start float window: " ++ exn_str e) "error")
        else ret tt
    | _ => ret tt
    end.

(** [run_float_window()] up to the event loop: the window it built, if
    it built one. *)
Definition run_float_window (label_size : QSize) : Eff World (option FloatWindow) :=
  try_except
    (log_message "Float Window subprocess started..." "process" ;;;
     store <- gets (fun w => image_paths_json (disk w)) ;;
     if negb (safe_exists store) then
       log_message "No JSON file found for image paths." "error" ;;; ret None
     else
       image_paths_data <- safe_read_file JSON_FILE_PATH image_paths_json
                                          empty_list_text ;;
       parsed <-
         try_except
           (paths <- json_loads image_paths_data ;; ret (Some paths))
           is_JSONDecodeError
           (fun _ =>
              log_message "Invalid JSON content in float_window_update.json."
                          "error" ;;;
              ret None) ;;
       match parsed with
       | None => ret None
       | Some temp_image_paths =>
           fun w =>
             match init_body label_size
                     {| self := new_window temp_image_paths; env := w |} with
             | (Returned _, v) => (Returned (Some (self v)), env v)
             | (Raised e, v) => (Raised e, env v)
             end
       end)
    is_Exception
    (fun e =>
       log_message ("ERROR in running float window " ++ exn_str e) "error" ;;;
       ret None).

(** ** The event loop *)

Inductive event : Type :=
| Tick (label_size : QSize)
| KeyPress (e : QKeyEvent) (label_size : QSize)
| Resized (width height : Z) (label_size : QSize)
| CloseRequested.

Definition handle (ev : event) : Eff Viewer unit :=
  match ev with
  | Tick label_size =>
      active <- attr timer_active ;;
      if active then check_for_updates label_size else ret tt
  | KeyPress e label_size => keyPressEvent e label_size
  | Resized width height label_size =>
      on_self (set_size width height) ;;;
      resizeEvent label_size
  | CloseRequested => closeEvent
  end.

Fixpoint run (events : list event) : Eff Viewer unit :=
  match events with
  | [] => ret tt
  | ev :: rest => handle ev ;;; run rest
  end.

(** * Vocabulary of the properties and sample states *)

(** The step a navigation key asks for: one forward for Right and Down,
    one backward for Left and Up. *)
Definition navigation_step (k : Key) : option Z :=
  match k with
  | Key_Right | Key_Down => Some 1
  | Key_Left | Key_Up => Some (-1)
  | _ => None
  end.

(** Two decodable images, both listed in the path store; no settings
    file. *)
Definition sample_disk : Disk :=
  {| image_paths_json := Holds (Encodes ["/tmp/a.png"; "/tmp/b.png"]);
     settings_json := Missing;
     images := [("/tmp/a.png", Stored true (Some "aa"));
                ("/tmp/b.png", Stored true (Some "bb"))];
     read_only := false |}.

Definition sample_world : World :=
  {| disk := sample_disk; trace := []; procs := []; popen_ok := true;
     save_dialog := ""; default_locale := Locale (Some "en_US") (Some "UTF-8") |}.

(** A window showing the second of two images. *)
Definition sample_viewer : Viewer :=
  {| self := set_current_index 1 (new_window ["/tmp/a.png"; "/tmp/b.png"]);
     env := sample_world |}.

(** A key pressed with no modifier. *)
Definition press (k : Key) : QKeyEvent := {| key := k; modifiers := NoModifier |}.

(** A window with no image to show. *)
Definition idle_viewer : Viewer :=
  {| self := new_window []; env := sample_world |}.

(** The path [update_image] is about to show. *)
Definition current_path (w : FloatWindow) : option string :=
  nth_error (temp_image_paths w)
            (Z.to_nat (current_index w mod len (temp_image_paths w))).

(** The two states of the change detector: no session content, or
    showing some image of a non-empty list. *)
Inductive detector_state : Type :=
| Idle
| Displaying.

Definition state_of (w : FloatWindow) : detector_state :=
  match temp_image_paths w with
  | [] => Idle
  | _ :: _ => Displaying
  end.

(** The window as a tick leaves it just before it re-renders: both caches
    cleared, the new list in place, the index back at 0. *)
Definition reloaded (new_image_paths : list string) (v : Viewer) : Viewer :=
  {| self := set_current_index 0
               (set_temp_image_paths new_image_paths
                  (set_scaled_image_cache [] (set_pixmap_cache [] (self v))));
     env := env v |}.

(** A window showing [/tmp/a.png] while the store already holds the two
    sample images. *)
Definition stale_viewer : Viewer :=
  {| self := new_window ["/tmp/a.png"]; env := sample_world |}.

(** A window showing the two sample images, which the store holds too. *)
Definition synced_viewer : Viewer :=
  {| self := new_window ["/tmp/a.png"; "/tmp/b.png"]; env := sample_world |}.

(** The sample window with the store's content replaced. *)
Definition with_store (f : file (text (list string))) (v : Viewer) : Viewer :=
  {| self := self v;
     env := set_disk (set_image_paths_json f (disk (env v))) (env v) |}.

(** The viewer [run_float_window] leaves running in a world (an idle
    window stands in when it built none). *)
Definition started (ls : QSize) (w : World) : Viewer :=
  match run_float_window ls w with
  | (Returned (Some window), e) => {| self := window; env := e |}
  | (_, e) => {| self := new_window []; env := e |}
  end.

(** The sample window after start-up and two presses of Right: both
    images are in the scaled cache and the first one is on display. *)
Definition browsed_viewer : Viewer :=
  snd (run [KeyPress (press Key_Right) (600, 600);
            KeyPress (press Key_Right) (600, 600)]
           (started (600, 600) sample_world)).

(** Values the toolkit takes for an [int] parameter, and the integer it
    reads from them. *)
Definition int_like (v : json) : bool :=
  match v with
  | JInt n => (-2147483648 <=? n) && (n <=? 2147483647)
  | JBool _ => true
  | _ => false
  end.

Definition int_of (v : json) : Z :=
  match v with
  | JInt n => n
  | JBool true => 1
  | _ => 0
  end.

Definition bool_like (v : json) : bool :=
  match v with
  | JBool _ | JInt _ => true
  | _ => false
  end.

(** The fields [load_settings] works from: those of the stored object;
    none when the file is absent, unreadable or unparsable.  A document
    that is no object has no fields to offer. *)
Definition stored_fields (f : file (text json)) : option (list (string * json)) :=
  match f with
  | Missing | Locked => Some []
  | Holds Malformed => Some []
  | Holds (Encodes (JObj fields)) => Some fields
  | Holds (Encodes _) => None
  end.

(** The geometry fields that are present hold integers. *)
Definition geometry_typed (fields : list (string * json)) : bool :=
  int_like (dict_get "width" (JInt 600) fields)
  && int_like (dict_get "height" (JInt 600) fields)
  && int_like (dict_get "x" (JInt 100) fields)
  && int_like (dict_get "y" (JInt 100) fields).

(** The sample window with the settings file replaced. *)
Definition with_settings (f : file (text json)) (v : Viewer) : Viewer :=
  {| self := self v;
     env := set_disk (set_settings_json f (disk (env v))) (env v) |}.

(** Every path of the list can be examined by the file system. *)
Definition reachable (d : Disk) (paths : list string) : bool :=
  forallb (fun p => negb (stat_fails d p)) paths.

(** What [calculate_image_hash] finds for a path. *)
Definition head_hash (d : Disk) (path : string) : option string :=
  match image_at d path with
  | Stored _ (Some digest) => Some digest
  | _ => None
  end.

(** The test under which [check_for_existing_images] takes the stored
    list: the list is non-empty, every path is a file that decodes, and
    the stored fingerprint is absent or empty, or a fresh fingerprint of
    the first path cannot be had, or equals the stored one. *)
Definition restorable (d : Disk) (paths : list string) (stored : json) : bool :=
  match paths with
  | [] => false
  | first :: _ =>
      image_existence d paths
      && (negb (truthy stored)
          || negb (hash_truthy (head_hash d first))
          || negb (hash_ne (head_hash d first) stored))
  end.

(** A store holding one image whose first kilobyte no longer hashes to
    the fingerprint kept in the settings. *)
Definition mismatch_world : World :=
  {| disk :=
       {| image_paths_json := Holds (Encodes ["/tmp/a.png"]);
          settings_json :=
            Holds (Encodes (JObj [("first_image_hash", JStr "old")]));
          images := [("/tmp/a.png", Stored true (Some "new"))];
          read_only := false |};
     trace := []; procs := []; popen_ok := true; save_dialog := "";
     default_locale := Locale (Some "en_US") (Some "UTF-8") |}.

(** A store listing a file that is gone. *)
Definition missing_image_world : World :=
  {| disk :=
       {| image_paths_json := Holds (Encodes ["/tmp/gone.png"]);
          settings_json := Missing;
          images := [];
          read_only := false |};
     trace := []; procs := []; popen_ok := true; save_dialog := "";
     default_locale := Locale (Some "en_US") (Some "UTF-8") |}.

(** [k] distinct image paths, all of them decodable files. *)
Definition numbered_path (n : nat) : string :=
  "/tmp/" ++ String (ascii_of_nat (48 + n)) "".

Definition many_paths (k : nat) : list string := map numbered_path (seq 0 k).

Definition gallery_world (k : nat) : World :=
  {| disk :=
       {| image_paths_json := Holds (Encodes (many_paths k));
          settings_json := Missing;
          images := map (fun p => (p, Stored true (Some "h"))) (many_paths k);
          read_only := false |};
     trace := []; procs := []; popen_ok := true; save_dialog := "";
     default_locale := Locale (Some "en_US") (Some "UTF-8") |}.

(** [load_pixmap] on each path in turn. *)
Fixpoint load_each (paths : list string) : Eff Viewer unit :=
  match paths with
  | [] => ret tt
  | p :: rest => _ <- load_pixmap p ;; load_each rest
  end.

(** The gallery's window after fifty images went through [load_pixmap]. *)
Definition full_cache_viewer : Viewer :=
  snd (load_each (many_paths 50) (started (600, 600) (gallery_world 51))).

(** The gallery's window after the user stepped through all 51 images. *)
Definition toured_viewer : Viewer :=
  snd (run (repeat (KeyPress (press Key_Right) (600, 600)) 50)
           (started (600, 600) (gallery_world 51))).

(** ** The indicator's geometry and dragging *)

(** [update_indicator_position()], once the indicator label exists: the
    fixed size the label is given and the point it is moved to, from the
    length of its text and the width of the window. *)
Definition update_indicator_position (text_length : Z) (w : FloatWindow)
  : QSize * (Z * Z) :=
  let new_width := Z.max 100 (text_length * 10) in
  ((new_width, 30), (win_width w / 2 - new_width / 2, 10)).

Inductive MouseButton : Type :=
| LeftButton
| RightButton
| MiddleButton.

Definition is_LeftButton (b : MouseButton) : bool :=
  match b with LeftButton => true | _ => false end.

(** The two attributes of the window that dragging uses: [self.dragging]
    and [self.offset] (None until the first press). *)
Record Grip : Type := {
  dragging : bool;
  offset : option (Z * Z)
}.

Definition released : Grip := {| dragging := false; offset := None |}.

(** [mousePressEvent(event)]: [global_pos] is
    [event.globalPosition().toPoint()]. *)
Definition mousePressEvent (button : MouseButton) (global_pos : Z * Z) (g : Grip)
  : Eff Viewer Grip :=
  if is_LeftButton button then
    x <- attr win_x ;;
    y <- attr win_y ;;
    ret {| dragging := true;
           offset := Some (fst global_pos - x, snd global_pos - y) |}
  else ret g.

(** [mouseMoveEvent(event)]. *)
Definition mouseMoveEvent (global_pos : Z * Z) (g : Grip) : Eff Viewer Grip :=
  if dragging g then
    match offset g with
    | Some o =>
        on_self (set_pos (fst global_pos - fst o) (snd global_pos - snd o)) ;;;
        ret g
    | None => raise TypeError
    end
  else ret g.

(** [mouseReleaseEvent(event)]. *)
Definition mouseReleaseEvent (button : MouseButton) (g : Grip) : Eff Viewer Grip :=
  if is_LeftButton button then ret {| dragging := false; offset := offset g |}
  else ret g.

Inductive mouse_event : Type :=
| Press (button : MouseButton) (global_pos : Z * Z)
| Move (global_pos : Z * Z)
| Release (button : MouseButton).

Definition mouse (ev : mouse_event) (g : Grip) : Eff Viewer Grip :=
  match ev with
  | Press button global_pos => mousePressEvent button global_pos g
  | Move global_pos => mouseMoveEvent global_pos g
  | Release button => mouseReleaseEvent button g
  end.

Fixpoint run_mouse (events : list mouse_event) (g : Grip) : Eff Viewer Grip :=
  match events with
  | [] => ret g
  | ev :: rest => g' <- mouse ev g ;; run_mouse rest g'
  end.

(** ** Vocabulary of the further properties *)

(** The keys of a dict, in insertion order. *)
Definition keys {V} (d : dict V) : list string := map fst d.

(** What the session keeps true: an index inside a non-empty list, and a
    scaled cache whose keys are distinct paths of the list. *)
Definition session_ok (w : FloatWindow) : Prop :=
  (temp_image_paths w <> [] ->
   0 <= current_index w < len (temp_image_paths w)) /\
  NoDup (keys (scaled_image_cache w)) /\
  incl (keys (scaled_image_cache w)) (temp_image_paths w).

(** A key event no branch of [keyPressEvent] answers. *)
Definition unbound (ev : QKeyEvent) : bool :=
  match key ev with
  | Key_Escape | Key_Right | Key_Down | Key_Left | Key_Up => false
  | Key_S | Key_C | Key_T => negb (is_Control (modifiers ev))
  | Key_Other => true
  end.

(** The settings object [save_settings] writes for a window, given the
    fingerprint of its first image. *)
Definition saved_fields (w : FloatWindow) (first_image_hash : option string)
  : list (string * json) :=
  [("always_on_top", always_on_top w);
   ("x", JInt (win_x w)); ("y", JInt (win_y w));
   ("width", JInt (win_width w)); ("height", JInt (win_height w));
   ("first_image_hash", hash_json first_image_hash)].

(** The fingerprint [save_settings] computes: of the first path, if any. *)
Definition first_hash (d : Disk) (paths : list string) : option string :=
  match paths with
  | first :: _ => head_hash d first
  | [] => None
  end.

(** A world with a read-only disk. *)
Definition read_only_world : World :=
  set_disk {| image_paths_json := image_paths_json sample_disk;
              settings_json := settings_json sample_disk;
              images := images sample_disk;
              read_only := true |} sample_world.

(** An integer that fits the C int of a toolkit parameter. *)
Definition c_int (n : Z) : Prop := -2147483648 <= n <= 2147483647.

(** A size the toolkit gives a widget. *)
Definition qt_size (n : Z) : Prop := 0 <= n <= 16777215.

(** A window whose geometry the toolkit can take back. *)
Definition geometry_fits (w : FloatWindow) : Prop :=
  c_int (win_x w) /\ c_int (win_y w) /\ qt_size (win_width w) /\ qt_size (win_height w).

(** The first path of the list, if there is one, can be examined by the
    file system. *)
Definition first_reachable (d : Disk) (paths : list string) : bool :=
  match paths with
  | first :: _ => negb (stat_fails d first)
  | [] => true
  end.

(** A window whose first image sits behind a path that cannot be
    examined. *)
Definition unreachable_viewer : Viewer :=
  {| self := new_window ["/mnt/locked/a.png"];
     env := set_disk {| image_paths_json := Holds (Encodes ["/mnt/locked/a.png"]);
                        settings_json := Missing;
                        images := [("/mnt/locked/a.png", Unreachable)];
                        read_only := false |} sample_world |}.

(** A world whose default locale [locale.getdefaultlocale] does not know. *)
Definition unknown_locale_world : World :=
  {| disk := sample_disk; trace := []; procs := []; popen_ok := true;
     save_dialog := ""; default_locale := UnknownLocale |}.

(** A settings file holding a JSON array, not an object. *)
Definition array_settings_viewer : Viewer :=
  {| self := new_window ["/tmp/a.png"];
     env := set_disk (set_settings_json (Holds (Encodes (JList []))) sample_disk)
                     sample_world |}.

(** * Properties *)

Arguments len : simpl never.
Arguments getitem : simpl never.
Arguments QPixmap_load : simpl never.
Arguments dict_get : simpl never.
Arguments as_int : simpl never.
Arguments as_bool : simpl never.
Local Arguments append : simpl never.
Local Arguments Z.modulo : simpl never.

(** Unfolds the combinators of the effect monad. *)
Ltac eff :=
  cbv [bind attr gets ret raise on_self modify in_env try_except log_message].

(** Case analysis on the innermost scrutinee of the goal. *)
Ltac break_match :=
  match goal with
  | |- context [match ?x with _ => _ end] =>
      lazymatch x with
      | context [match _ with _ => _ end] => fail
      | _ => destruct x eqn:?
      end
  end.

(** ** Lists and indices *)

Lemma list_eqb_refl (a : list string) : list_eqb a a = true.
Proof.
  induction a as [|x a IH]; simpl; [reflexivity|].
  rewrite String.eqb_refl. exact IH.
Qed.

Lemma list_eqb_eq (a b : list string) : list_eqb a b = true <-> a = b.
Proof.
  split.
  - revert b. induction a as [|x a IH]; destruct b as [|y b]; simpl; intro H;
      try reflexivity; try discriminate.
    apply andb_true_iff in H. destruct H as [Hx Hl].
    apply String.eqb_eq in Hx. subst y. f_equal. apply IH. exact Hl.
  - intros ->. apply list_eqb_refl.
Qed.

Lemma list_ne_true (a b : list string) : a <> b -> list_ne a b = true.
Proof.
  intro H. unfold list_ne. destruct (list_eqb a b) eqn:E; [|reflexivity].
  apply list_eqb_eq in E. contradiction.
Qed.

Lemma len_pos {A} (l : list A) : l <> [] -> 0 < len l.
Proof. destruct l; [congruence|]. intros _. unfold len. simpl. lia. Qed.

Lemma len_cons_ne_0 {A} (x : A) (l : list A) : (len (x :: l) =? 0) = false.
Proof.
  apply Z.eqb_neq. assert (0 < len (x :: l)) by (apply len_pos; congruence). lia.
Qed.

Lemma getitem_nth {A} (l : list A) (i : Z) :
  0 <= i < len l ->
  exists x, nth_error l (Z.to_nat i) = Some x /\
            forall S (s : S), getitem l i s = (Returned x, s).
Proof.
  intros [H0 H1].
  destruct (nth_error l (Z.to_nat i)) as [x|] eqn:N.
  - exists x. split; [reflexivity|]. intros S s. unfold getitem.
    destruct (i <? 0) eqn:E; [apply Z.ltb_lt in E; lia|]. rewrite E, N. reflexivity.
  - apply nth_error_None in N. unfold len in H1. lia.
Qed.

(** ** What [update_image] leaves alone *)

(** [update_image] never raises; it keeps the path list, the decoded
    cache, the flag [closing] and the disk, and it reduces the index
    modulo the length of a non-empty list. *)
Lemma update_image_frame (ls : QSize) (v : Viewer) :
  exists v', update_image ls v = (Returned tt, v') /\
    temp_image_paths (self v') = temp_image_paths (self v) /\
    pixmap_cache (self v') = pixmap_cache (self v) /\
    closing (self v') = closing (self v) /\
    disk (env v') = disk (env v) /\
    current_index (self v') =
      (if closing (self v)
          || match temp_image_paths (self v) with [] => true | _ => false end
       then current_index (self v)
       else current_index (self v) mod len (temp_image_paths (self v))).
Proof.
  destruct v as [w e]. destruct w. unfold update_image. eff. simpl.
  destruct closing0; simpl.
  { eexists. split; [reflexivity|]. simpl. auto 10. }
  destruct temp_image_paths0 as [|p rest]; simpl.
  { eexists. split; [reflexivity|]. simpl. auto 10. }
  destruct (getitem_nth (p :: rest) (current_index0 mod len (p :: rest)))
    as [x [Hn Hg]].
  { apply Z.mod_pos_bound. apply len_pos. congruence. }
  rewrite Hg. simpl.
  repeat (break_match; simpl); eexists; (split; [reflexivity|]); simpl; auto 10.
Qed.

(** On an empty list [update_image] returns at once. *)
Lemma update_image_empty (ls : QSize) (v : Viewer) :
  temp_image_paths (self v) = [] -> update_image ls v = (Returned tt, v).
Proof.
  intro H. unfold update_image. eff. rewrite H.
  rewrite orb_true_r. reflexivity.
Qed.

Lemma mod__ok {S} (a b : Z) (s : S) :
  b <> 0 -> mod_ a b s = (Returned (a mod b), s).
Proof.
  intro H. unfold mod_.
  destruct (b =? 0) eqn:E; [apply Z.eqb_eq in E; contradiction|reflexivity].
Qed.

(** ** Navigation (C9, C10) *)

Lemma navigation_key_press (ev : QKeyEvent) (ls : QSize) (step : Z) :
  navigation_step (key ev) = Some step ->
  keyPressEvent ev ls =
    (index <- attr current_index ;;
     paths <- attr temp_image_paths ;;
     index' <- mod_ (index + step) (len paths) ;;
     on_self (set_current_index index') ;;;
     update_image ls).
Proof.
  destruct ev as [k m]. unfold keyPressEvent. simpl.
  destruct k; simpl; intro H; inversion H; subst; try reflexivity.
Qed.

(** C9.  In a session with a non-empty list of n paths, a navigation key
    press returns normally, keeps the list, and moves the index to
    (index + step) modulo n: forward from n-1 gives 0, backward from 0
    gives n-1, and the index lies in [0, n) afterwards. *)
Theorem C9_navigation_wraps (ev : QKeyEvent) (ls : QSize) (v : Viewer) (step : Z) :
  navigation_step (key ev) = Some step ->
  temp_image_paths (self v) <> [] ->
  exists v',
    keyPressEvent ev ls v = (Returned tt, v') /\
    temp_image_paths (self v') = temp_image_paths (self v) /\
    current_index (self v') =
      (current_index (self v) + step) mod len (temp_image_paths (self v)) /\
    0 <= current_index (self v') < len (temp_image_paths (self v)) /\
    (step = 1 ->
     current_index (self v) = len (temp_image_paths (self v)) - 1 ->
     current_index (self v') = 0) /\
    (step = -1 ->
     current_index (self v) = 0 ->
     current_index (self v') = len (temp_image_paths (self v)) - 1).
Proof.
  intros Hk Hne.
  pose proof (len_pos _ Hne) as Hn.
  rewrite (navigation_key_press ev ls step Hk).
  set (n := len (temp_image_paths (self v))) in *.
  set (i' := (current_index (self v) + step) mod n).
  set (v1 := {| self := set_current_index i' (self v); env := env v |}).
  destruct (update_image_frame ls v1) as [v' [Hrun [Hp [_ [_ [_ Hi]]]]]].
  exists v'.
  assert (Hrange : 0 <= i' < n) by (apply Z.mod_pos_bound; exact Hn).
  assert (Hidx : current_index (self v') = i').
  { rewrite Hi. simpl.
    match goal with |- (if ?c then _ else _) = _ => destruct c end;
      [reflexivity|].
    fold n. apply Z.mod_small. exact Hrange. }
  split.
  { eff. fold n. rewrite mod__ok by lia. exact Hrun. }
  split; [exact Hp|].
  split; [exact Hidx|].
  split; [rewrite Hidx; exact Hrange|].
  split; intros Hs Hc; rewrite Hidx; unfold i'; rewrite Hs, Hc.
  - replace (n - 1 + 1) with (1 * n) by lia. apply Z.mod_mul. lia.
  - replace (0 + -1) with (-1) by lia.
    rewrite <- (Z.mod_add (-1) 1 n) by lia.
    replace (-1 + 1 * n) with (n - 1) by lia.
    apply Z.mod_small. lia.
Qed.

Lemma C9_navigation_wraps_witness :
  exists v',
    keyPressEvent (press Key_Right) (600, 600) sample_viewer = (Returned tt, v') /\
    current_index (self v') = 0.
Proof.
  destruct (C9_navigation_wraps (press Key_Right) (600, 600) sample_viewer 1)
    as [v' [Hrun [_ [_ [_ [Hwrap _]]]]]].
  - reflexivity.
  - simpl. discriminate.
  - exists v'. split; [exact Hrun|]. apply Hwrap; reflexivity.
Defined.

(** C10.  With an empty path list a navigation key press raises
    ZeroDivisionError: the index is reduced modulo the length before any
    emptiness test, whereas [update_image] returns early on an empty
    list.  The window is left as it was. *)
Theorem C10_navigation_on_empty_list_raises
        (ev : QKeyEvent) (ls : QSize) (v : Viewer) (step : Z) :
  navigation_step (key ev) = Some step ->
  temp_image_paths (self v) = [] ->
  keyPressEvent ev ls v = (Raised ZeroDivisionError, v) /\
  update_image ls v = (Returned tt, v).
Proof.
  intros Hk He. split.
  - rewrite (navigation_key_press ev ls step Hk). eff. rewrite He. reflexivity.
  - apply update_image_empty. exact He.
Qed.

Lemma C10_navigation_on_empty_list_raises_witness :
  keyPressEvent (press Key_Left) (600, 600) idle_viewer
    = (Raised ZeroDivisionError, idle_viewer) /\
  update_image (600, 600) idle_viewer = (Returned tt, idle_viewer).
Proof.
  apply (C10_navigation_on_empty_list_raises (press Key_Left) (600, 600)
           idle_viewer (-1)); reflexivity.
Defined.

(** ** What [update_image] does on a cache miss *)

Lemma current_path_nonempty (w : FloatWindow) (p : string) :
  current_path w = Some p -> temp_image_paths w <> [].
Proof.
  unfold current_path. intros H E. rewrite E in H.
  destruct (Z.to_nat (current_index w mod len [])); discriminate.
Qed.

(** A miss on a decodable image: one scaling at the window's size, stored
    under the path and shown in the label. *)
Lemma update_image_miss (ls : QSize) (v : Viewer) (p : string) (px : QPixmap) :
  closing (self v) = false ->
  current_path (self v) = Some p ->
  assoc p (scaled_image_cache (self v)) = None ->
  QPixmap_load (disk (env v)) p = Some px ->
  exists v',
    update_image ls v = (Returned tt, v') /\
    scaled_image_cache (self v') =
      setitem p (Scaling px (win_width (self v)) (win_height (self v)))
              (scaled_image_cache (self v)) /\
    trace (env v') =
      Scaled p (win_width (self v)) (win_height (self v)) :: trace (env v) /\
    label_pixmap (self v') =
      Some (Scaling px (win_width (self v)) (win_height (self v))) /\
    current_label_size (self v') = Some ls.
Proof.
  intros Hc Hp Hmiss Hload.
  pose proof (current_path_nonempty _ _ Hp) as Hne.
  unfold current_path in Hp.
  destruct v as [w e]. destruct w. simpl in *. subst closing0.
  destruct temp_image_paths0 as [|p0 rest]; [congruence|].
  unfold update_image. eff. simpl.
  destruct (getitem_nth (p0 :: rest) (current_index0 mod len (p0 :: rest)))
    as [x [Hn Hg]].
  { apply Z.mod_pos_bound. apply len_pos. congruence. }
  rewrite Hp in Hn. inversion Hn; subst x. rewrite Hg. simpl.
  rewrite Hmiss. simpl. rewrite Hload. simpl.
  break_match; eexists; (split; [reflexivity|]); simpl; auto.
Qed.

(** A miss on an image that does not decode: a warning, and nothing else
    changes but the reduced index. *)
Lemma update_image_unloadable (ls : QSize) (v : Viewer) (p : string) :
  closing (self v) = false ->
  current_path (self v) = Some p ->
  assoc p (scaled_image_cache (self v)) = None ->
  QPixmap_load (disk (env v)) p = None ->
  exists v',
    update_image ls v = (Returned tt, v') /\
    scaled_image_cache (self v') = scaled_image_cache (self v) /\
    trace (env v') =
      Print "warning" ("Failed to load image: " ++ p) :: trace (env v) /\
    label_pixmap (self v') = label_pixmap (self v).
Proof.
  intros Hc Hp Hmiss Hload.
  pose proof (current_path_nonempty _ _ Hp) as Hne.
  unfold current_path in Hp.
  destruct v as [w e]. destruct w. simpl in *. subst closing0.
  destruct temp_image_paths0 as [|p0 rest]; [congruence|].
  unfold update_image. eff. simpl.
  destruct (getitem_nth (p0 :: rest) (current_index0 mod len (p0 :: rest)))
    as [x [Hn Hg]].
  { apply Z.mod_pos_bound. apply len_pos. congruence. }
  rewrite Hp in Hn. inversion Hn; subst x. rewrite Hg. simpl.
  rewrite Hmiss. simpl. rewrite Hload. simpl.
  eexists; (split; [reflexivity|]); simpl; auto.
Qed.

(** When [closing] is set [update_image] returns at once. *)
Lemma update_image_closing (ls : QSize) (v : Viewer) :
  closing (self v) = true -> update_image ls v = (Returned tt, v).
Proof.
  intro H. unfold update_image. eff. rewrite H. reflexivity.
Qed.

(** Started on an empty scaled cache, [update_image] leaves it empty or
    holding the current path alone, freshly scaled. *)
Lemma update_image_from_empty (ls : QSize) (v : Viewer) :
  scaled_image_cache (self v) = [] ->
  exists v',
    update_image ls v = (Returned tt, v') /\
    (scaled_image_cache (self v') = [] /\
     (closing (self v) = false ->
      forall p, current_path (self v) = Some p ->
                QPixmap_load (disk (env v)) p = None)
     \/
     exists p px,
       closing (self v) = false /\
       current_path (self v) = Some p /\
       QPixmap_load (disk (env v)) p = Some px /\
       scaled_image_cache (self v') =
         [(p, Scaling px (win_width (self v)) (win_height (self v)))] /\
       trace (env v') =
         Scaled p (win_width (self v)) (win_height (self v)) :: trace (env v) /\
       label_pixmap (self v') =
         Some (Scaling px (win_width (self v)) (win_height (self v)))).
Proof.
  intro Hempty.
  destruct (closing (self v)) eqn:Hc.
  { exists v. split; [apply update_image_closing; exact Hc|].
    left. split; [exact Hempty|]. discriminate. }
  destruct (current_path (self v)) as [p|] eqn:Hp.
  2:{ assert (He : temp_image_paths (self v) = []).
      { unfold current_path in Hp.
        destruct (temp_image_paths (self v)) as [|q r] eqn:E; [reflexivity|].
        apply nth_error_None in Hp.
        assert (0 <= current_index (self v) mod len (q :: r) < len (q :: r))
          by (apply Z.mod_pos_bound; apply len_pos; congruence).
        unfold len in *. lia. }
      exists v. split; [apply update_image_empty; exact He|].
      left. split; [exact Hempty|]. intros _ q Hq. discriminate. }
  assert (Hmiss : assoc p (scaled_image_cache (self v)) = None)
    by (rewrite Hempty; reflexivity).
  destruct (QPixmap_load (disk (env v)) p) as [px|] eqn:Hload.
  - destruct (update_image_miss ls v p px Hc Hp Hmiss Hload)
      as [v' [Hrun [Hs [Ht [Hl _]]]]].
    exists v'. split; [exact Hrun|]. right. exists p, px.
    rewrite Hempty in Hs. simpl in Hs. auto 10.
  - destruct (update_image_unloadable ls v p Hc Hp Hmiss Hload)
      as [v' [Hrun [Hs _]]].
    exists v'. split; [exact Hrun|]. left. split.
    + rewrite Hs. exact Hempty.
    + intros _ q Hq. inversion Hq; subst. exact Hload.
Qed.

(** ** The change detector (C1, C2, C6) *)

Lemma check_for_updates_changed (ls : QSize) (v : Viewer) (P2 : list string) :
  image_paths_json (disk (env v)) = Holds (Encodes P2) ->
  P2 <> temp_image_paths (self v) ->
  check_for_updates ls v = update_image ls (reloaded P2 v).
Proof.
  intros Hstore Hne.
  unfold check_for_updates, safe_read_file, json_loads, clear_cache. eff.
  simpl. repeat (rewrite Hstore; simpl). rewrite (list_ne_true _ _ Hne). reflexivity.
Qed.

Lemma current_path_reloaded (P2 : list string) (v : Viewer) :
  current_path (self (reloaded P2 v)) = hd_error P2.
Proof.
  unfold current_path. cbn [reloaded self temp_image_paths current_index
                            set_current_index set_temp_image_paths].
  destruct P2 as [|first rest]; [reflexivity|].
  rewrite Z.mod_0_l; [reflexivity|].
  assert (0 < len (first :: rest)) by (apply len_pos; congruence). lia.
Qed.

(** C1.  When the path store holds a list P2 different from the list on
    display, a tick returns normally and ends in the state [update_image]
    reaches from cleared caches: the session shows P2 at index 0, the
    decoded cache is empty, the scaled cache holds nothing from before
    the tick (it is empty, or holds the freshly scaled first image of
    P2), the detector is Displaying when P2 is non-empty, and the first
    image, when it decodes and the window is not closing, is rendered. *)
Theorem C1_tick_reloads_changed_list (ls : QSize) (v : Viewer) (P2 : list string) :
  image_paths_json (disk (env v)) = Holds (Encodes P2) ->
  P2 <> temp_image_paths (self v) ->
  exists v',
    check_for_updates ls v = (Returned tt, v') /\
    update_image ls (reloaded P2 v) = (Returned tt, v') /\
    temp_image_paths (self v') = P2 /\
    current_index (self v') = 0 /\
    pixmap_cache (self v') = [] /\
    (scaled_image_cache (self v') = [] \/
     exists first px,
       hd_error P2 = Some first /\
       scaled_image_cache (self v') =
         [(first, Scaling px (win_width (self v)) (win_height (self v)))]) /\
    (P2 <> [] -> state_of (self v') = Displaying) /\
    (closing (self v) = false ->
     forall first px,
       hd_error P2 = Some first ->
       QPixmap_load (disk (env v)) first = Some px ->
       label_pixmap (self v') =
         Some (Scaling px (win_width (self v)) (win_height (self v))) /\
       trace (env v') =
         Scaled first (win_width (self v)) (win_height (self v)) :: trace (env v)).
Proof.
  intros Hstore Hne.
  rewrite (check_for_updates_changed ls v P2 Hstore Hne).
  destruct (update_image_frame ls (reloaded P2 v))
    as [v' [Hrun [Hp [Hpc [_ [_ Hi]]]]]].
  destruct (update_image_from_empty ls (reloaded P2 v) eq_refl)
    as [v'' [Hrun' Hcases]].
  rewrite Hrun in Hrun'. inversion Hrun'; subst v''. clear Hrun'.
  rewrite current_path_reloaded in Hcases.
  exists v'. simpl in *.
  split; [exact Hrun|]. split; [exact Hrun|]. split; [exact Hp|].
  split.
  { rewrite Hi. destruct (closing (self v)); simpl; [reflexivity|].
    destruct P2 as [|first rest]; [reflexivity|].
    apply Z.mod_0_l.
    assert (0 < len (first :: rest)) by (apply len_pos; congruence). lia. }
  split; [exact Hpc|].
  split.
  { destruct Hcases as [[Hs _]|[p [px [_ [Hh [_ [Hs _]]]]]]].
    - left. exact Hs.
    - right. exists p, px. auto. }
  split.
  { intro Hnonempty. unfold state_of. rewrite Hp.
    destruct P2; [congruence|reflexivity]. }
  intros Hc first px Hfirst Hload.
  destruct Hcases as [[_ Hnone]|[p [px' [_ [Hh [Hl [_ [Ht Hlab]]]]]]]].
  - rewrite (Hnone Hc first Hfirst) in Hload. discriminate.
  - rewrite Hfirst in Hh. inversion Hh; subst p.
    rewrite Hload in Hl. inversion Hl; subst px'. auto.
Qed.

Lemma C1_tick_reloads_changed_list_witness :
  exists v',
    check_for_updates (600, 600) stale_viewer = (Returned tt, v') /\
    temp_image_paths (self v') = ["/tmp/a.png"; "/tmp/b.png"] /\
    current_index (self v') = 0 /\
    state_of (self v') = Displaying.
Proof.
  destruct (C1_tick_reloads_changed_list (600, 600) stale_viewer
              ["/tmp/a.png"; "/tmp/b.png"])
    as [v' [Hrun [_ [Hp [Hi [_ [_ [Hd _]]]]]]]].
  - reflexivity.
  - simpl. discriminate.
  - exists v'. repeat split; try assumption. apply Hd. discriminate.
Defined.

(** C2.  When the path store holds a list equal in content to the list on
    display, a tick changes nothing at all: caches, list, index, label
    and trace (so nothing is scaled or logged) are as before. *)
Theorem C2_tick_same_content_is_noop (ls : QSize) (v : Viewer) (P : list string) :
  image_paths_json (disk (env v)) = Holds (Encodes P) ->
  P = temp_image_paths (self v) ->
  check_for_updates ls v = (Returned tt, v).
Proof.
  intros Hstore Heq.
  unfold check_for_updates, safe_read_file, json_loads. eff.
  simpl. repeat (rewrite Hstore; simpl). unfold list_ne. rewrite Heq, list_eqb_refl. simpl.
  destruct v. reflexivity.
Qed.

Lemma C2_tick_same_content_is_noop_witness :
  check_for_updates (600, 600) synced_viewer = (Returned tt, synced_viewer).
Proof.
  apply (C2_tick_same_content_is_noop (600, 600) synced_viewer
           ["/tmp/a.png"; "/tmp/b.png"]); reflexivity.
Defined.

(** C6 (as amended).  A tick never raises on a path store that is absent
    or whose content [json.loads] rejects with [JSONDecodeError], and it
    does not read them as the empty list: with the file absent it
    returns at once, with rejected content it logs an error and returns,
    and either way the window (list, index, both caches) and the disk
    are exactly as before.  A file that exists but cannot be read or
    decoded as text is not covered: [safe_read_file] answers its default
    for it. *)
Theorem C6_tick_keeps_session_on_absent_or_malformed_store
        (ls : QSize) (v : Viewer) :
  image_paths_json (disk (env v)) = Missing \/
  image_paths_json (disk (env v)) = Holds Malformed ->
  exists v',
    check_for_updates ls v = (Returned tt, v') /\
    self v' = self v /\
    disk (env v') = disk (env v) /\
    (image_paths_json (disk (env v)) = Missing -> v' = v) /\
    (image_paths_json (disk (env v)) = Holds Malformed ->
     trace (env v') = Print "error" "Invalid JSON content" :: trace (env v)).
Proof.
  intros [Hstore|Hstore];
    unfold check_for_updates, safe_read_file, json_loads; eff;
    simpl; repeat (rewrite Hstore; simpl).
  - exists v. repeat split; try reflexivity. intro H. discriminate.
  - eexists. split; [reflexivity|]. simpl.
    repeat split; try reflexivity. intro H. discriminate.
Qed.

Lemma C6_tick_keeps_session_on_absent_or_malformed_store_witness :
  exists v',
    check_for_updates (600, 600) (with_store (Holds Malformed) synced_viewer)
      = (Returned tt, v') /\
    temp_image_paths (self v') = ["/tmp/a.png"; "/tmp/b.png"].
Proof.
  destruct (C6_tick_keeps_session_on_absent_or_malformed_store
              (600, 600) (with_store (Holds Malformed) synced_viewer))
    as [v' [Hrun [Hself _]]].
  - right. reflexivity.
  - exists v'. split; [exact Hrun|]. rewrite Hself. reflexivity.
Defined.

(** C6 as first stated fails: were content [json.loads] rejects read as
    the empty list, the tick would treat it as a store holding the empty list; but
    the second empties a displayed list and the first keeps it. *)
Lemma C6_malformed_is_not_read_as_empty_list :
  temp_image_paths
    (self (snd (check_for_updates (600, 600)
                  (with_store (Holds Malformed) synced_viewer))))
    = ["/tmp/a.png"; "/tmp/b.png"] /\
  temp_image_paths
    (self (snd (check_for_updates (600, 600)
                  (with_store (Holds (Encodes [])) synced_viewer))))
    = [] /\
  temp_image_paths
    (self (snd (check_for_updates (600, 600)
                  (with_store (Holds Malformed) synced_viewer))))
  <> temp_image_paths
       (self (snd (check_for_updates (600, 600)
                     (with_store (Holds (Encodes [])) synced_viewer)))).
Proof.
  repeat split; try reflexivity. vm_compute. discriminate.
Qed.

(** ** The producer's entry point (C7) *)

(** C7.  Handed anything but a list, [open_float_window] returns normally
    after logging one error: the world is as before but for that line, so
    the path store is not written and no viewer is started. *)
Theorem C7_publish_rejects_non_list (arg : pyvalue) (w : World) :
  isinstance_list arg = false ->
  open_float_window arg w =
    (Returned tt,
     emit (Print "error" "Invalid image paths provided. Expected a list.") w) /\
  disk (snd (open_float_window arg w)) = disk w /\
  procs (snd (open_float_window arg w)) = procs w.
Proof.
  intro H. unfold open_float_window. rewrite H. simpl. auto.
Qed.

Lemma C7_publish_rejects_non_list_witness :
  disk (snd (open_float_window (PyTuple ["/tmp/a.png"]) sample_world))
    = sample_disk.
Proof.
  destruct (C7_publish_rejects_non_list (PyTuple ["/tmp/a.png"]) sample_world)
    as [_ [Hdisk _]].
  - reflexivity.
  - exact Hdisk.
Defined.

(** ** Resizing (C4) *)

(** C4 (as amended).  A resize empties the scaled cache and then scales
    the image on display once: when the window is not closing and the
    current image decodes, the cache afterwards holds that image alone,
    scaled to the window's size, the trace has grown by that one scaling,
    and the label shows it.  The decoded cache and the list are kept. *)
Theorem C4_resize_flushes_then_rescales_current
        (ls : QSize) (v : Viewer) (p : string) (px : QPixmap) :
  closing (self v) = false ->
  current_path (self v) = Some p ->
  QPixmap_load (disk (env v)) p = Some px ->
  exists v',
    resizeEvent ls v = (Returned tt, v') /\
    scaled_image_cache (self v') =
      [(p, Scaling px (win_width (self v)) (win_height (self v)))] /\
    trace (env v') =
      Scaled p (win_width (self v)) (win_height (self v)) :: trace (env v) /\
    label_pixmap (self v') =
      Some (Scaling px (win_width (self v)) (win_height (self v))) /\
    pixmap_cache (self v') = pixmap_cache (self v) /\
    temp_image_paths (self v') = temp_image_paths (self v).
Proof.
  intros Hc Hp Hload.
  set (v1 := {| self := set_scaled_image_cache [] (self v); env := env v |}).
  assert (Hstep : resizeEvent ls v = update_image ls v1) by reflexivity.
  rewrite Hstep.
  destruct (update_image_miss ls v1 p px Hc Hp eq_refl Hload)
    as [v' [Hrun [Hs [Ht [Hl _]]]]].
  destruct (update_image_frame ls v1) as [v'' [Hrun' [Hpaths [Hpc _]]]].
  rewrite Hrun in Hrun'. inversion Hrun'; subst v''.
  exists v'. simpl in *. auto 10.
Qed.

Lemma C4_resize_flushes_then_rescales_current_witness :
  exists v',
    resizeEvent (600, 600) browsed_viewer = (Returned tt, v') /\
    scaled_image_cache (self v') =
      [("/tmp/a.png", Scaling (FromFile "/tmp/a.png") 600 600)].
Proof.
  destruct (C4_resize_flushes_then_rescales_current
              (600, 600) browsed_viewer "/tmp/a.png" (FromFile "/tmp/a.png"))
    as [v' [Hrun [Hs _]]].
  - reflexivity.
  - reflexivity.
  - reflexivity.
  - exists v'. split; [exact Hrun|]. exact Hs.
Defined.

(** C4 as first stated fails: the entry of an image that is not on
    display does not survive a resize. *)
Lemma C4_resize_drops_other_entries :
  current_path (self browsed_viewer) = Some "/tmp/a.png" /\
  contains_key "/tmp/b.png" (scaled_image_cache (self browsed_viewer)) = true /\
  contains_key "/tmp/b.png"
    (scaled_image_cache
       (self (snd (handle (Resized 800 600 (800, 600)) browsed_viewer))))
    = false.
Proof.
  vm_compute. repeat split; reflexivity.
Qed.

(** ** Loading the settings (C8) *)

Lemma as_int_ok {S} (v : json) (s : S) :
  int_like v = true -> as_int v s = (Returned (int_of v), s).
Proof.
  unfold as_int, int_like, int_of. destruct v; try discriminate.
  - destruct b; reflexivity.
  - intro H. rewrite H. reflexivity.
Qed.

Lemma as_bool_ok {S} (v : json) (s : S) :
  bool_like v = true -> exists b, as_bool v s = (Returned b, s).
Proof.
  unfold as_bool, bool_like.
  destruct v; try discriminate; intros _; eexists; reflexivity.
Qed.

Lemma load_settings_spec (v : Viewer) (fields : list (string * json)) :
  stored_fields (settings_json (disk (env v))) = Some fields ->
  geometry_typed fields = true ->
  exists v',
    load_settings v = (Returned tt, v') /\
    always_on_top (self v') = dict_get "always_on_top" (JBool false) fields /\
    win_width (self v') = qt_bound (int_of (dict_get "width" (JInt 600) fields)) /\
    win_height (self v') = qt_bound (int_of (dict_get "height" (JInt 600) fields)) /\
    win_x (self v') = int_of (dict_get "x" (JInt 100) fields) /\
    win_y (self v') = int_of (dict_get "y" (JInt 100) fields) /\
    temp_image_paths (self v') = temp_image_paths (self v) /\
    current_index (self v') = current_index (self v) /\
    scaled_image_cache (self v') = scaled_image_cache (self v) /\
    pixmap_cache (self v') = pixmap_cache (self v) /\
    disk (env v') = disk (env v).
Proof.
  intros Hf Ht. unfold geometry_typed in Ht.
  apply andb_true_iff in Ht. destruct Ht as [Ht Hy].
  apply andb_true_iff in Ht. destruct Ht as [Ht Hx].
  apply andb_true_iff in Ht. destruct Ht as [Hw Hh].
  destruct v as [w e]. simpl in Hf.
  unfold load_settings, safe_read_file, json_loads, resize, move, get,
    empty_object_text.
  eff. simpl.
  destruct (settings_json (disk e)) as [| |[|doc]]; simpl in *.
  - inversion Hf; subst fields.
    eexists. split; [reflexivity|]. simpl. auto 15.
  - inversion Hf; subst fields.
    eexists. split; [reflexivity|]. simpl. auto 15.
  - inversion Hf; subst fields.
    eexists. split; [reflexivity|]. simpl. auto 15.
  - destruct doc; try discriminate. inversion Hf; subst fields0.
    rewrite (as_int_ok _ _ Hw). rewrite (as_int_ok _ _ Hh). simpl.
    rewrite (as_int_ok _ _ Hx). rewrite (as_int_ok _ _ Hy). simpl.
    eexists. split; [reflexivity|]. simpl. auto 15.
Qed.




(** ** Start-up (C5) *)

Arguments image_existence : simpl never.
Arguments truthy : simpl never.
Arguments hash_truthy : simpl never.
Arguments hash_ne : simpl never.

Lemma bind_returned {S A B} (m : Eff S A) (k : A -> Eff S B) (s s' : S) (a : A) :
  m s = (Returned a, s') -> bind m k s = k a s'.
Proof. intro H. unfold bind. rewrite H. reflexivity. Qed.

Lemma bind_on_self {B} (f : FloatWindow -> FloatWindow)
      (k : unit -> Eff Viewer B) (v : Viewer) :
  bind (on_self f) k v = k tt {| self := f (self v); env := env v |}.
Proof. reflexivity. Qed.

Arguments check_images : simpl never.

Lemma safe_exists_path_ok (path : string) (w : World) :
  stat_fails (disk w) path = false ->
  safe_exists_path path w = (Returned (safe_exists_image (disk w) path), w).
Proof. intro H. unfold safe_exists_path. eff. rewrite H. reflexivity. Qed.

Lemma safe_exists_path_raises (path : string) (w : World) :
  stat_fails (disk w) path = true ->
  safe_exists_path path w = (Raised OSError, w).
Proof. intro H. unfold safe_exists_path. eff. rewrite H. reflexivity. Qed.

Lemma calculate_image_hash_eq (path : string) (w : World) :
  stat_fails (disk w) path = false ->
  exists w',
    calculate_image_hash path w = (Returned (head_hash (disk w) path), w') /\
    disk w' = disk w.
Proof.
  intro Hs. unfold calculate_image_hash.
  rewrite (bind_returned _ _ _ _ _ (safe_exists_path_ok path w Hs)).
  unfold head_hash, safe_exists_image. eff. simpl.
  destruct (image_at (disk w) path) as [|dec [digest|]|] eqn:E; simpl;
    rewrite ?E; simpl; eexists; split; reflexivity.
Qed.

Lemma calculate_image_hash_raises (path : string) (w : World) :
  stat_fails (disk w) path = true ->
  calculate_image_hash path w = (Raised OSError, w).
Proof.
  intro Hs. unfold calculate_image_hash. unfold bind.
  rewrite (safe_exists_path_raises path w Hs). reflexivity.
Qed.

Lemma image_existence_cons (d : Disk) (p : string) (rest : list string) :
  image_existence d (p :: rest) =
    if negb (safe_exists_image d p) then false
    else match QPixmap_load d p with
         | None => false
         | Some _ => image_existence d rest
         end.
Proof. reflexivity. Qed.

(** Where every path can be examined, the loop answers without raising. *)
Lemma check_images_eq (paths : list string) (w : World) :
  reachable (disk w) paths = true ->
  check_images paths w = (Returned (image_existence (disk w) paths), w).
Proof.
  induction paths as [|p rest IH]; intro Hr; [reflexivity|].
  simpl in Hr. apply andb_true_iff in Hr. destruct Hr as [Hp Hrest].
  apply negb_true_iff in Hp.
  rewrite image_existence_cons.
  change (check_images (p :: rest))
    with (present <- safe_exists_path p ;;
          if negb present then ret false
          else
            d <- gets disk ;;
            match QPixmap_load d p with
            | None => ret false
            | Some _ => check_images rest
            end).
  rewrite (bind_returned _ _ _ _ _ (safe_exists_path_ok p w Hp)).
  destruct (safe_exists_image (disk w) p); simpl; [|reflexivity].
  eff. destruct (QPixmap_load (disk w) p); [apply IH; exact Hrest|reflexivity].
Qed.

(** A list all of whose files exist and decode can be examined. *)
Lemma image_existence_reachable (d : Disk) (paths : list string) :
  image_existence d paths = true -> reachable d paths = true.
Proof.
  induction paths as [|p rest IH]; [reflexivity|].
  rewrite image_existence_cons. unfold safe_exists_image, QPixmap_load, stat_fails.
  simpl. unfold stat_fails.
  destruct (image_at d p) as [|[|] h|]; simpl; try discriminate.
  exact IH.
Qed.

Lemma check_for_existing_images_spec
      (v : Viewer) (fields : list (string * json)) (P : list string) :
  stored_fields (settings_json (disk (env v))) = Some fields ->
  image_paths_json (disk (env v)) = Holds (Encodes P) ->
  reachable (disk (env v)) P = true ->
  exists v',
    check_for_existing_images v = (Returned tt, v') /\
    (temp_image_paths (self v'), current_index (self v')) =
      (if restorable (disk (env v)) P (dict_get "first_image_hash" JNull fields)
       then (P, 0)
       else (temp_image_paths (self v), current_index (self v))) /\
    disk (env v') = disk (env v) /\
    always_on_top (self v') = always_on_top (self v) /\
    closing (self v') = closing (self v) /\
    scaled_image_cache (self v') = scaled_image_cache (self v) /\
    pixmap_cache (self v') = pixmap_cache (self v).
Proof.
  intros Hf Hstore Hreach.
  destruct v as [w e]. simpl in *.
  assert (Hhash : exists e1,
    (settings_data <- in_env (safe_read_file SETTINGS_FILE_PATH settings_json
                                             empty_object_text) ;;
     try_except
       (settings <- json_loads settings_data ;;
        get settings "first_image_hash" JNull)
       is_JSONDecodeError
       (fun _ =>
          in_env (log_message
                    "Failed to load settings.json. Continuing without hash check."
                    "warning") ;;;
          ret JNull)) {| self := w; env := e |}
    = (Returned (dict_get "first_image_hash" JNull fields),
       {| self := w; env := e1 |}) /\ disk e1 = disk e).
  { unfold safe_read_file, json_loads, get, empty_object_text. eff. simpl.
    destruct (settings_json (disk e)) as [| |[|doc]]; simpl in *;
      try (inversion Hf; subst fields; eexists; split; reflexivity).
    destruct doc; try discriminate. inversion Hf; subst fields0.
    eexists; split; reflexivity. }
  destruct Hhash as [e1 [Hhash Hd1]].
  unfold check_for_existing_images.
  unfold bind at 1. unfold bind at 1 in Hhash. 
  match type of Hhash with
  | match ?a with _ => _ end = _ =>
      match goal with
      | |- exists _, match ?b with _ => _ end = _ /\ _ => change b with a
      end
  end.
  destruct (in_env (safe_read_file SETTINGS_FILE_PATH settings_json
                                   empty_object_text) {| self := w; env := e |})
    as [[settings_data|ex] s1]; [|discriminate].
  unfold bind at 1. rewrite Hhash. clear Hhash.
  unfold safe_read_file, json_loads, empty_list_text. eff. simpl.
  rewrite Hd1, Hstore. simpl.
  destruct P as [|first others]; simpl.
  { eexists. split; [reflexivity|]. simpl. auto 10. }
  assert (Hreach1 : reachable (disk e1) (first :: others) = true)
    by (rewrite Hd1; exact Hreach).
  rewrite (check_images_eq _ e1 Hreach1). simpl. rewrite ?Hd1.
  assert (Hfirst : stat_fails (disk e1) first = false).
  { simpl in Hreach1. apply andb_true_iff in Hreach1.
    destruct Hreach1 as [H _]. apply negb_true_iff in H. exact H. }
  destruct (image_existence (disk e) (first :: others)) eqn:Hex; simpl.
  2:{ eexists. split; [reflexivity|]. simpl. auto 10. }
  destruct (truthy (dict_get "first_image_hash" JNull fields)) eqn:Htr; simpl.
  2:{ eexists. split; [reflexivity|]. simpl. auto 10. }
  destruct (calculate_image_hash_eq first e1 Hfirst) as [e2 [Hcalc Hd2]].
  rewrite Hcalc. simpl. rewrite Hd1.
  destruct (hash_truthy (head_hash (disk e) first)
            && hash_ne (head_hash (disk e) first)
                       (dict_get "first_image_hash" JNull fields)) eqn:Hm.
  - apply andb_true_iff in Hm. destruct Hm as [Hm1 Hm2].
    rewrite Hm1, Hm2. simpl.
    eexists. split; [reflexivity|]. simpl. rewrite Hd2, Hd1. auto 10.
  - assert (Hr : negb (hash_truthy (head_hash (disk e) first))
                 || negb (hash_ne (head_hash (disk e) first)
                                  (dict_get "first_image_hash" JNull fields))
                 = true).
    { apply andb_false_iff in Hm. destruct Hm as [Hm|Hm]; rewrite Hm; simpl;
        [reflexivity|apply orb_true_r]. }
    rewrite Hr. simpl.
    eexists. split; [reflexivity|]. simpl. rewrite Hd2, Hd1. auto 10.
Qed.

Lemma update_always_on_top_ok (v : Viewer) :
  bool_like (always_on_top (self v)) = true ->
  update_always_on_top v = (Returned tt, v).
Proof.
  intro H. unfold update_always_on_top. eff.
  destruct (as_bool_ok (S:=Viewer) _ v H) as [b Hb]. rewrite Hb. reflexivity.
Qed.

Lemma setChecked_ok (v : Viewer) :
  bool_like (always_on_top (self v)) = true ->
  always_on_top_action_setChecked v = (Returned tt, v).
Proof.
  intro H. unfold always_on_top_action_setChecked. eff.
  destruct (as_bool_ok (S:=Viewer) _ v H) as [b Hb]. rewrite Hb. reflexivity.
Qed.

(** The constructor on a store that holds P and settings that load: the
    window is built and shows P from index 0, whatever the session
    restorer decided. *)
Lemma init_body_spec (ls : QSize) (w : World) (P : list string)
      (fields : list (string * json)) :
  image_paths_json (disk w) = Holds (Encodes P) ->
  stored_fields (settings_json (disk w)) = Some fields ->
  geometry_typed fields = true ->
  bool_like (dict_get "always_on_top" (JBool false) fields) = true ->
  reachable (disk w) P = true ->
  exists v',
    init_body ls {| self := new_window P; env := w |} = (Returned tt, v') /\
    temp_image_paths (self v') = P /\
    current_index (self v') = 0 /\
    disk (env v') = disk w.
Proof.
  intros Hstore Hf Ht Hb Hreach.
  set (v0 := {| self := new_window P; env := w |}).
  destruct (load_settings_spec v0 fields Hf Ht)
    as [v1 [Hrun1 [Ha1 [_ [_ [_ [_ [Hp1 [Hi1 [_ [_ Hd1]]]]]]]]]]].
  set (v3 := {| self := set_closing false
                          (set_size (qt_bound (Z.max 300 (win_width (self v1))))
                                    (qt_bound (Z.max 300 (win_height (self v1))))
                                    (self v1));
                env := env v1 |}).
  assert (Hb3 : bool_like (always_on_top (self v3)) = true)
    by (simpl; rewrite Ha1; exact Hb).
  assert (Hf3 : stored_fields (settings_json (disk (env v3))) = Some fields)
    by (simpl; rewrite Hd1; exact Hf).
  assert (Hs3 : image_paths_json (disk (env v3)) = Holds (Encodes P))
    by (simpl; rewrite Hd1; exact Hstore).
  assert (Hr3 : reachable (disk (env v3)) P = true)
    by (simpl; rewrite Hd1; exact Hreach).
  destruct (check_for_existing_images_spec v3 fields P Hf3 Hs3 Hr3)
    as [v4 [Hrun4 [Hpi4 [Hd4 [Ha4 _]]]]].
  assert (Hb4 : bool_like (always_on_top (self v4)) = true)
    by (rewrite Ha4; exact Hb3).
  set (v5 := {| self := set_timer_active true (self v4); env := env v4 |}).
  destruct (update_image_frame ls v5) as [v6 [Hrun6 [Hp6 [_ [_ [Hd6 Hi6]]]]]].
  assert (Hpi : temp_image_paths (self v4) = P /\ current_index (self v4) = 0).
  { simpl in Hpi4. rewrite Hp1, Hi1 in Hpi4. simpl in Hpi4.
    destruct (restorable _ _ _); inversion Hpi4; auto. }
  destruct Hpi as [Hp4 Hi4].
  exists v6. split.
  { unfold init_body.
    rewrite (bind_returned _ _ _ _ _ Hrun1).
    rewrite !bind_on_self. fold v3.
    rewrite (bind_returned _ _ _ _ _ (update_always_on_top_ok v3 Hb3)).
    rewrite (bind_returned _ _ _ _ _ Hrun4).
    rewrite (bind_returned _ _ _ _ _ (setChecked_ok v4 Hb4)).
    rewrite bind_on_self. exact Hrun6. }
  split; [rewrite Hp6; exact Hp4|].
  split.
  { rewrite Hi6. simpl. rewrite Hi4, Hp4.
    destruct (closing (self v4)); simpl; [reflexivity|].
    destruct P as [|first rest]; [reflexivity|].
    apply Z.mod_0_l.
    assert (0 < len (first :: rest)) by (apply len_pos; congruence). lia. }
  rewrite Hd6. simpl. rewrite Hd4. simpl. exact Hd1.
Qed.

(** C5 (as amended).  With a path store that holds a list P every path
    of which the file system can examine, and settings that load (no
    fields, or an object whose geometry fields fit a C int and whose
    always-on-top field is a bool or an integer), the session restorer
    takes the stored list at index 0 under its test and otherwise leaves
    the window as the constructor made it; as the constructor was handed
    the same list P, the viewer starts with P at index 0 in either case,
    Idle only when P is empty. *)
Theorem C5_startup_shows_store_list
        (ls : QSize) (w : World) (P : list string) (fields : list (string * json)) :
  image_paths_json (disk w) = Holds (Encodes P) ->
  stored_fields (settings_json (disk w)) = Some fields ->
  geometry_typed fields = true ->
  bool_like (dict_get "always_on_top" (JBool false) fields) = true ->
  reachable (disk w) P = true ->
  (forall window : FloatWindow,
      exists v',
        check_for_existing_images {| self := window; env := w |}
          = (Returned tt, v') /\
        (temp_image_paths (self v'), current_index (self v')) =
          (if restorable (disk w) P (dict_get "first_image_hash" JNull fields)
           then (P, 0)
           else (temp_image_paths window, current_index window))) /\
  (exists window w',
      run_float_window ls w = (Returned (Some window), w') /\
      temp_image_paths window = P /\
      current_index window = 0 /\
      state_of window = match P with [] => Idle | _ :: _ => Displaying end).
Proof.
  intros Hstore Hf Ht Hb Hreach. split.
  - intro window.
    destruct (check_for_existing_images_spec
                {| self := window; env := w |} fields P Hf Hstore Hreach)
      as [v' [Hrun [Hpi _]]].
    exists v'. split; [exact Hrun|exact Hpi].
  - set (w1 := emit (Print "process" "Float Window subprocess started...") w).
    destruct (init_body_spec ls w1 P fields Hstore Hf Ht Hb Hreach)
      as [v' [Hrun [Hp [Hi _]]]].
    exists (self v'), (env v'). split.
    + unfold run_float_window, safe_read_file, json_loads. eff. simpl.
      repeat (rewrite Hstore; simpl).
      fold w1. rewrite Hrun. reflexivity.
    + split; [exact Hp|]. split; [exact Hi|].
      unfold state_of. rewrite Hp. reflexivity.
Qed.

Lemma C5_startup_shows_store_list_witness :
  exists window w',
    run_float_window (600, 600) mismatch_world = (Returned (Some window), w') /\
    temp_image_paths window = ["/tmp/a.png"] /\
    current_index window = 0 /\
    state_of window = Displaying.
Proof.
  destruct (C5_startup_shows_store_list (600, 600) mismatch_world
              ["/tmp/a.png"] [("first_image_hash", JStr "old")])
    as [_ Hstart].
  - reflexivity.
  - reflexivity.
  - reflexivity.
  - reflexivity.
  - reflexivity.
  - exact Hstart.
Defined.

(** C5 as first stated fails: with a stored fingerprint that differs from
    the fresh one, and likewise with a listed file that is gone, the
    restorer's test fails and yet the viewer does not start Idle on an
    empty list: it shows the list of the store. *)
Lemma C5_failed_test_does_not_empty_the_session :
  (fst (calculate_image_hash "/tmp/a.png" mismatch_world)
     = Returned (Some "new") /\
   restorable (disk mismatch_world) ["/tmp/a.png"] (JStr "old") = false /\
   fst (run_float_window (600, 600) mismatch_world)
     = Returned (Some (self (started (600, 600) mismatch_world))) /\
   temp_image_paths (self (started (600, 600) mismatch_world))
     = ["/tmp/a.png"] /\
   state_of (self (started (600, 600) mismatch_world)) = Displaying) /\
  (restorable (disk missing_image_world) ["/tmp/gone.png"] JNull = false /\
   fst (run_float_window (600, 600) missing_image_world)
     = Returned (Some (self (started (600, 600) missing_image_world))) /\
   temp_image_paths (self (started (600, 600) missing_image_world))
     = ["/tmp/gone.png"] /\
   state_of (self (started (600, 600) missing_image_world)) = Displaying).
Proof.
  vm_compute. repeat split; reflexivity.
Qed.

(** ** The cache bound (C3) *)

(** At the bound, [load_pixmap] on a new decodable path raises TypeError
    and leaves the window as it was. *)
Lemma load_pixmap_at_bound_raises (path : string) (px : QPixmap) (v : Viewer) :
  assoc path (pixmap_cache (self v)) = None ->
  QPixmap_load (disk (env v)) path = Some px ->
  max_cache_size (self v) <= len (pixmap_cache (self v)) ->
  load_pixmap path v = (Raised TypeError, v).
Proof.
  intros Hmiss Hload Hfull. unfold load_pixmap, dict_popitem_last. eff.
  rewrite Hmiss. simpl. rewrite Hload. simpl.
  destruct (len (pixmap_cache (self v)) >=? max_cache_size (self v)) eqn:E.
  - reflexivity.
  - rewrite Z.geb_leb in E. apply Z.leb_gt in E. lia.
Qed.

(** C3, on the code.  The decoded tier: with 50 entries in the cache,
    caching a 51st image raises TypeError, so nothing is evicted and the
    new image is not cached.  The scaled tier: after a tour of 51 images
    the cache holds 51 entries, above the bound of 50. *)
Theorem C3_cache_bound_is_not_enforced :
  (len (pixmap_cache (self full_cache_viewer)) = 50 /\
   max_cache_size (self full_cache_viewer) = 50 /\
   load_pixmap (numbered_path 50) full_cache_viewer
     = (Raised TypeError, full_cache_viewer) /\
   contains_key (numbered_path 0) (pixmap_cache (self full_cache_viewer)) = true /\
   contains_key (numbered_path 50) (pixmap_cache (self full_cache_viewer)) = false) /\
  (fst (run (repeat (KeyPress (press Key_Right) (600, 600)) 50)
            (started (600, 600) (gallery_world 51))) = Returned tt /\
   len (scaled_image_cache (self toured_viewer)) = 51 /\
   max_cache_size (self toured_viewer) = 50).
Proof.
  split.
  - split; [vm_compute; reflexivity|].
    split; [vm_compute; reflexivity|].
    split.
    + apply (load_pixmap_at_bound_raises _ (FromFile (numbered_path 50)));
        vm_compute; try reflexivity. discriminate.
    + split; vm_compute; reflexivity.
  - repeat split; vm_compute; reflexivity.
Qed.

(** * Further properties *)

(** ** The producer: publishing, the singleton guard, the exit hook *)

Lemma scan_processes_viewer (ps : list (list string)) :
  scan_processes (viewer_argv :: ps) = true.
Proof. reflexivity. Qed.

(** X1.  [open_float_window] raises nothing but the ValueError of a
    default locale that [locale.getdefaultlocale] does not know, and
    that only when it is about to start a viewer: handed a list, with no
    matching process in the table.  Then it raises after the path store
    was written and starts nothing.  In every other case it returns
    normally, whatever the disk and the process start do; the settings
    file and the image files are never touched. *)
Theorem X1_publish_raises_only_on_unknown_locale (arg : pyvalue) (w : World) :
  exists r w',
    open_float_window arg w = (r, w') /\
    settings_json (disk w') = settings_json (disk w) /\
    images (disk w') = images (disk w) /\
    (isinstance_list arg = false \/ scan_processes (procs w) = true \/
     default_locale w <> UnknownLocale ->
     r = Returned tt) /\
    (isinstance_list arg = true -> scan_processes (procs w) = false ->
     default_locale w = UnknownLocale ->
     r = Raised ValueError /\
     procs w' = procs w /\
     (read_only (disk w) = false ->
      exists P, arg = PyList P /\ image_paths_json (disk w') = Holds (Encodes P))).
Proof.
  unfold open_float_window, safe_write_file, is_window_running, Popen,
    getdefaultlocale.
  eff.
  destruct arg; simpl;
    try (eexists; eexists; split; [reflexivity|]; simpl;
         repeat split; try reflexivity; intros; discriminate).
  destruct (read_only (disk w)) eqn:Hro; simpl;
    destruct (scan_processes (procs w)) eqn:Hscan; simpl;
    try (eexists; eexists; split; [reflexivity|]; simpl;
         repeat split; try reflexivity; intros; discriminate);
    destruct (default_locale w) as [language encoding|] eqn:Hloc; simpl;
    try destruct (popen_ok w); simpl;
    eexists; eexists; (split; [reflexivity|]); simpl;
    repeat split; try reflexivity; intros;
    try discriminate; try congruence;
    try (match goal with
         | H : _ \/ _ \/ _ |- _ =>
             destruct H as [H|[H|H]]; try discriminate; congruence
         end);
    eexists; split; reflexivity.
Qed.

Lemma X1_publish_raises_only_on_unknown_locale_witness :
  fst (open_float_window (PyList ["/tmp/a.png"]) unknown_locale_world)
    = Raised ValueError /\
  fst (open_float_window (PyTuple ["/tmp/a.png"]) unknown_locale_world)
    = Returned tt.
Proof.
  split.
  - destruct (X1_publish_raises_only_on_unknown_locale
                (PyList ["/tmp/a.png"]) unknown_locale_world)
      as [r [w' [Hrun [_ [_ [_ Hraise]]]]]].
    rewrite Hrun. simpl.
    destruct (Hraise eq_refl eq_refl eq_refl) as [Hr _]. exact Hr.
  - destruct (X1_publish_raises_only_on_unknown_locale
                (PyTuple ["/tmp/a.png"]) unknown_locale_world)
      as [r [w' [Hrun [_ [_ [Hret _]]]]]].
    rewrite Hrun. simpl. apply Hret. left. reflexivity.
Defined.

(** X2.  On a writable disk, publishing a list leaves the path store
    holding exactly that list (and returns normally unless the default
    locale is unknown), and the next tick of a running viewer brings it
    on display at index 0 when it differs from the list shown, and
    changes nothing in the window when it is the list shown. *)
Theorem X2_published_list_reaches_the_viewer
        (ls : QSize) (P : list string) (v : Viewer) :
  read_only (disk (env v)) = false ->
  exists r w',
    open_float_window (PyList P) (env v) = (r, w') /\
    (default_locale (env v) <> UnknownLocale -> r = Returned tt) /\
    image_paths_json (disk w') = Holds (Encodes P) /\
    exists v',
      check_for_updates ls {| self := self v; env := w' |} = (Returned tt, v') /\
      temp_image_paths (self v') = P /\
      (P <> temp_image_paths (self v) -> current_index (self v') = 0) /\
      (P = temp_image_paths (self v) -> self v' = self v).
Proof.
  intro Hrw.
  assert (Hpub : exists r w',
    open_float_window (PyList P) (env v) = (r, w') /\
    (default_locale (env v) <> UnknownLocale -> r = Returned tt) /\
    image_paths_json (disk w') = Holds (Encodes P)).
  { unfold open_float_window, safe_write_file, is_window_running, Popen,
      getdefaultlocale.
    eff. simpl. rewrite Hrw. simpl.
    destruct (scan_processes (procs (env v))); simpl;
      try (eexists; eexists; split; [reflexivity|]; split; reflexivity).
    destruct (default_locale (env v)) as [language encoding|]; simpl.
    - destruct (popen_ok (env v)); simpl;
        eexists; eexists; (split; [reflexivity|]); split; reflexivity.
    - eexists. eexists. split; [reflexivity|]. split; [congruence|reflexivity]. }
  destruct Hpub as [r [w' [Hrun [Hret Hstore]]]].
  exists r, w'. split; [exact Hrun|]. split; [exact Hret|]. split; [exact Hstore|].
  set (v1 := {| self := self v; env := w' |}).
  destruct (list_eqb P (temp_image_paths (self v))) eqn:E.
  - apply list_eqb_eq in E. exists v1. split.
    + unfold check_for_updates, safe_read_file, json_loads. eff.
      simpl. repeat (rewrite Hstore; simpl).
      unfold list_ne. rewrite E, list_eqb_refl. reflexivity.
    + simpl. split; [symmetry; exact E|]. split; [contradiction|reflexivity].
  - assert (Hne : P <> temp_image_paths (self v1)).
    { intro H. apply list_eqb_eq in H. simpl in H. congruence. }
    rewrite (check_for_updates_changed ls v1 P Hstore Hne).
    destruct (update_image_frame ls (reloaded P v1))
      as [v' [Hrun' [Hp [_ [_ [_ Hi]]]]]].
    exists v'. split; [exact Hrun'|]. split; [exact Hp|]. split.
    + intros _. rewrite Hi. simpl.
      destruct (closing (self v)); simpl; [reflexivity|].
      destruct P as [|first rest]; [reflexivity|].
      apply Z.mod_0_l.
      assert (0 < len (first :: rest)) by (apply len_pos; congruence). lia.
    + intro H. exfalso. apply Hne. exact H.
Qed.

Lemma X2_published_list_reaches_the_viewer_witness :
  exists w',
    open_float_window (PyList ["/tmp/b.png"]) (env synced_viewer)
      = (Returned tt, w') /\
    image_paths_json (disk w') = Holds (Encodes ["/tmp/b.png"]).
Proof.
  destruct (X2_published_list_reaches_the_viewer
              (600, 600) ["/tmp/b.png"] synced_viewer)
    as [r [w' [Hrun [Hret [Hstore _]]]]].
  - reflexivity.
  - exists w'. rewrite Hret in Hrun by discriminate. split; [exact Hrun|exact Hstore].
Defined.

(** X3.  The singleton guard: when a process of the table already
    matches, publishing starts nothing and leaves the table alone; when
    none matches, the default locale is known and processes can be
    started, publishing starts exactly one viewer, which the guard sees
    from then on, so that a second publication starts nothing. *)
Theorem X3_publish_starts_at_most_one_viewer
        (P1 P2 : list string) (w : World) :
  read_only (disk w) = false ->
  (scan_processes (procs w) = true ->
   open_float_window (PyList P1) w =
     (Returned tt,
      emit (Print "info" "Updating existing float window...")
           (set_disk (set_image_paths_json (Holds (Encodes P1)) (disk w)) w))) /\
  (scan_processes (procs w) = false ->
   popen_ok w = true ->
   default_locale w <> UnknownLocale ->
   exists w1 w2,
     open_float_window (PyList P1) w = (Returned tt, w1) /\
     procs w1 = viewer_argv :: procs w /\
     trace w1 =
       Env.Popen viewer_argv
                 (if locale_has "UTF-8" (default_locale w)
                  then "C.UTF-8" else "en_US.UTF-8")
         :: Print "process" "Starting new float window process..." :: trace w /\
     fst (is_window_running w1) = Returned true /\
     open_float_window (PyList P2) w1 = (Returned tt, w2) /\
     procs w2 = procs w1 /\
     trace w2 = Print "info" "Updating existing float window..." :: trace w1 /\
     image_paths_json (disk w2) = Holds (Encodes P2)).
Proof.
  intro Hrw. split.
  - intro Hscan.
    unfold open_float_window, safe_write_file, is_window_running, Popen. eff.
    simpl. rewrite Hrw. simpl. rewrite Hscan. reflexivity.
  - intros Hscan Hok Hloc.
    destruct (default_locale w) as [language encoding|] eqn:El; [|congruence].
    eexists. eexists. split.
    { unfold open_float_window, safe_write_file, is_window_running, Popen,
        getdefaultlocale.
      eff. simpl. rewrite Hrw. simpl. rewrite Hscan. simpl. rewrite El. simpl.
      rewrite Hok. reflexivity. }
    split; [reflexivity|]. split; [reflexivity|]. split; [reflexivity|].
    split.
    { unfold open_float_window, safe_write_file, is_window_running, Popen. eff.
      simpl. rewrite Hrw. reflexivity. }
    split; [reflexivity|]. split; reflexivity.
Qed.

Lemma X3_publish_starts_at_most_one_viewer_witness :
  exists w1 w2,
    open_float_window (PyList ["/tmp/a.png"]) sample_world = (Returned tt, w1) /\
    open_float_window (PyList ["/tmp/b.png"]) w1 = (Returned tt, w2) /\
    procs w2 = [viewer_argv].
Proof.
  destruct (X3_publish_starts_at_most_one_viewer
              ["/tmp/a.png"] ["/tmp/b.png"] sample_world eq_refl)
    as [_ Hstart].
  destruct (Hstart eq_refl eq_refl)
    as [w1 [w2 [H1 [Hp1 [_ [_ [H2 [Hp2 _]]]]]]]].
  - simpl. discriminate.
  - exists w1, w2. split; [exact H1|]. split; [exact H2|].
    rewrite Hp2, Hp1. reflexivity.
Defined.

(** X4.  On a read-only disk the write of the path store fails inside
    [safe_write_file], which logs it; the store keeps its old content
    and the failure is not raised.  The publication goes on to the
    singleton guard all the same: with a known default locale it returns
    normally, and with no viewer running and processes that can be
    started, it starts one. *)
Theorem X4_failed_write_does_not_stop_publication (P : list string) (w : World) :
  read_only (disk w) = true ->
  exists r w',
    open_float_window (PyList P) w = (r, w') /\
    disk w' = disk w /\
    In (Print "error" ("Error writing to " ++ JSON_FILE_PATH ++ ": OSError"))
       (trace w') /\
    (default_locale w <> UnknownLocale ->
     r = Returned tt /\
     (scan_processes (procs w) = false -> popen_ok w = true ->
      procs w' = viewer_argv :: procs w)).
Proof.
  intro Hro.
  unfold open_float_window, safe_write_file, is_window_running, Popen,
    getdefaultlocale.
  eff. simpl. rewrite Hro. simpl.
  destruct (scan_processes (procs w)); simpl.
  - eexists. eexists. split; [reflexivity|]. simpl.
    split; [reflexivity|]. split; [auto|].
    intros _. split; [reflexivity|discriminate].
  - destruct (default_locale w) as [language encoding|]; simpl.
    + destruct (popen_ok w); simpl; eexists; eexists; (split; [reflexivity|]);
        simpl; (split; [reflexivity|]); (split; [auto|]);
        intros _; (split; [reflexivity|]); intros; try reflexivity.
      discriminate.
    + eexists. eexists. split; [reflexivity|]. simpl.
      split; [reflexivity|]. split; [auto|]. congruence.
Qed.

Lemma X4_failed_write_does_not_stop_publication_witness :
  exists w',
    open_float_window (PyList ["/tmp/c.png"]) read_only_world = (Returned tt, w') /\
    image_paths_json (disk w') = Holds (Encodes ["/tmp/a.png"; "/tmp/b.png"]) /\
    procs w' = [viewer_argv].
Proof.
  destruct (X4_failed_write_does_not_stop_publication
              ["/tmp/c.png"] read_only_world eq_refl)
    as [r [w' [Hrun [Hdisk [_ Hrest]]]]].
  destruct Hrest as [Hret Hspawn]; [simpl; discriminate|].
  exists w'. rewrite Hret in Hrun. split; [exact Hrun|]. split.
  - rewrite Hdisk. reflexivity.
  - apply Hspawn; reflexivity.
Defined.

(** X5.  The exit hook [cleanup_json_file] never raises; on a writable
    disk it leaves no path store behind, and a viewer that keeps running
    is not disturbed by that: its next tick changes nothing. *)
Theorem X5_cleanup_leaves_the_viewer_alone (ls : QSize) (v : Viewer) :
  exists w',
    cleanup_json_file (env v) = (Returned tt, w') /\
    settings_json (disk w') = settings_json (disk (env v)) /\
    (read_only (disk (env v)) = false ->
     image_paths_json (disk w') = Missing /\
     check_for_updates ls {| self := self v; env := w' |}
       = (Returned tt, {| self := self v; env := w' |})).
Proof.
  unfold cleanup_json_file, safe_remove_image_paths. eff. simpl.
  destruct (image_paths_json (disk (env v))) eqn:Hstore; simpl;
    repeat (rewrite Hstore; simpl).
  - exists (env v). split; [reflexivity|]. split; [reflexivity|].
    intros _. split; [exact Hstore|].
    unfold check_for_updates. eff. simpl. rewrite Hstore. reflexivity.
  - destruct (read_only (disk (env v))) eqn:Hro; simpl.
    + eexists. split; [reflexivity|]. split; [reflexivity|]. discriminate.
    + eexists. split; [reflexivity|]. split; [reflexivity|].
      intros _. split; reflexivity.
  - destruct (read_only (disk (env v))) eqn:Hro; simpl.
    + eexists. split; [reflexivity|]. split; [reflexivity|]. discriminate.
    + eexists. split; [reflexivity|]. split; [reflexivity|].
      intros _. split; reflexivity.
Qed.

Lemma X5_cleanup_leaves_the_viewer_alone_witness :
  exists w',
    cleanup_json_file (env synced_viewer) = (Returned tt, w') /\
    image_paths_json (disk w') = Missing /\
    check_for_updates (600, 600) {| self := self synced_viewer; env := w' |}
      = (Returned tt, {| self := self synced_viewer; env := w' |}).
Proof.
  destruct (X5_cleanup_leaves_the_viewer_alone (600, 600) synced_viewer)
    as [w' [Hrun [_ Hrest]]].
  destruct (Hrest eq_refl) as [Hmissing Htick].
  exists w'. split; [exact Hrun|]. split; [exact Hmissing|exact Htick].
Defined.

(** ** Dicts: insertion and lookup *)

Lemma assoc_setitem_same {V} (k : string) (v : V) (d : dict V) :
  assoc k (setitem k v d) = Some v.
Proof.
  induction d as [|[k' v'] d IH]; simpl.
  - rewrite String.eqb_refl. reflexivity.
  - destruct (k =? k')%string eqn:E; simpl; rewrite E; [reflexivity|exact IH].
Qed.

Lemma assoc_setitem_other {V} (k k' : string) (v : V) (d : dict V) :
  k' <> k -> assoc k' (setitem k v d) = assoc k' d.
Proof.
  intro Hne. induction d as [|[k0 v0] d IH]; simpl.
  - destruct (k' =? k)%string eqn:E; [apply String.eqb_eq in E; contradiction|].
    reflexivity.
  - destruct (k =? k0)%string eqn:E; simpl.
    + apply String.eqb_eq in E. subst k0.
      destruct (k' =? k)%string eqn:E'; [apply String.eqb_eq in E'; contradiction|].
      reflexivity.
    + destruct (k' =? k0)%string; [reflexivity|exact IH].
Qed.

Lemma dict_get_setitem_same {V} (k : string) (v default : V) (d : dict V) :
  dict_get k default (setitem k v d) = v.
Proof. unfold dict_get. rewrite assoc_setitem_same. reflexivity. Qed.

Lemma dict_get_setitem_other {V} (k k' : string) (v default : V) (d : dict V) :
  k' <> k -> dict_get k' default (setitem k v d) = dict_get k' default d.
Proof. intro H. unfold dict_get. rewrite assoc_setitem_other by exact H. reflexivity. Qed.

Lemma assoc_None_keys {V} (k : string) (d : dict V) :
  assoc k d = None <-> ~ In k (keys d).
Proof.
  unfold keys. induction d as [|[k' v'] d IH]; simpl.
  - split; [intros _ []|reflexivity].
  - destruct (k =? k')%string eqn:E.
    + apply String.eqb_eq in E. subst k'. split; [discriminate|].
      intro H. exfalso. apply H. left. reflexivity.
    + apply String.eqb_neq in E. rewrite IH. split.
      * intros H [H'|H']; [congruence|contradiction].
      * intros H H'. apply H. right. exact H'.
Qed.

Lemma keys_setitem_hit {V} (k : string) (v : V) (d : dict V) :
  In k (keys d) -> keys (setitem k v d) = keys d.
Proof.
  unfold keys. induction d as [|[k' v'] d IH]; simpl; [intros []|].
  intro H. destruct (k =? k')%string eqn:E; simpl; [reflexivity|].
  apply String.eqb_neq in E. f_equal. apply IH.
  destruct H as [H|H]; [congruence|exact H].
Qed.

Lemma keys_setitem_miss {V} (k : string) (v : V) (d : dict V) :
  ~ In k (keys d) -> keys (setitem k v d) = keys d ++ [k].
Proof.
  unfold keys. induction d as [|[k' v'] d IH]; simpl; [reflexivity|].
  intro H. destruct (k =? k')%string eqn:E; simpl.
  - apply String.eqb_eq in E. subst k'. exfalso. apply H. left. reflexivity.
  - f_equal. apply IH. intro H'. apply H. right. exact H'.
Qed.

Lemma keys_setitem_NoDup {V} (k : string) (v : V) (d : dict V) :
  NoDup (keys d) -> NoDup (keys (setitem k v d)).
Proof.
  intro Hnd. destruct (in_dec string_dec k (keys d)) as [Hin|Hout].
  - rewrite keys_setitem_hit by exact Hin. exact Hnd.
  - rewrite keys_setitem_miss by exact Hout.
    apply NoDup_app; [exact Hnd|constructor; [intros []|constructor]|].
    intros x Hx [Hk|[]]. subst x. contradiction.
Qed.

Lemma keys_setitem_incl {V} (k : string) (v : V) (d : dict V) (l : list string) :
  incl (keys d) l -> In k l -> incl (keys (setitem k v d)) l.
Proof.
  intros Hincl Hk. destruct (in_dec string_dec k (keys d)) as [Hin|Hout].
  - rewrite keys_setitem_hit by exact Hin. exact Hincl.
  - rewrite keys_setitem_miss by exact Hout.
    apply incl_app; [exact Hincl|]. intros x [Hx|[]]. subst x. exact Hk.
Qed.

(** ** Settings: saving, loading, toggling *)

Lemma image_at_images (d d' : Disk) (path : string) :
  images d' = images d -> image_at d' path = image_at d path.
Proof. intro H. unfold image_at. rewrite H. reflexivity. Qed.

Lemma image_existence_images (d d' : Disk) (paths : list string) :
  images d' = images d -> image_existence d' paths = image_existence d paths.
Proof.
  intro H. induction paths as [|p rest IH]; [reflexivity|].
  assert (E : forall d0,
             image_existence d0 (p :: rest) =
             if negb (safe_exists_image d0 p) then false
             else match QPixmap_load d0 p with
                  | None => false
                  | Some _ => image_existence d0 rest
                  end) by reflexivity.
  rewrite !E. unfold safe_exists_image, QPixmap_load.
  rewrite (image_at_images d d' p H), IH. reflexivity.
Qed.

Lemma reachable_images (d d' : Disk) (paths : list string) :
  images d' = images d -> reachable d' paths = reachable d paths.
Proof.
  intro H. unfold reachable, stat_fails, image_at. rewrite H. reflexivity.
Qed.

Lemma head_hash_images (d d' : Disk) (path : string) :
  images d' = images d -> head_hash d' path = head_hash d path.
Proof. intro H. unfold head_hash. rewrite (image_at_images d d' path H). reflexivity. Qed.

(** What [save_settings] leaves on a writable disk. *)
Lemma save_settings_spec (v : Viewer) :
  read_only (disk (env v)) = false ->
  first_reachable (disk (env v)) (temp_image_paths (self v)) = true ->
  exists v1,
    save_settings v = (Returned tt, v1) /\
    self v1 = self v /\
    settings_json (disk (env v1)) =
      Holds (Encodes (JObj (saved_fields (self v)
                              (first_hash (disk (env v))
                                          (temp_image_paths (self v)))))) /\
    image_paths_json (disk (env v1)) = image_paths_json (disk (env v)) /\
    images (disk (env v1)) = images (disk (env v)) /\
    read_only (disk (env v1)) = false.
Proof.
  intros Hrw Hfirst. destruct v as [w e]. simpl in *.
  unfold save_settings, safe_write_file, json_dumps, saved_fields, first_hash.
  destruct (temp_image_paths w) as [|first rest] eqn:Hp.
  - eff. simpl. rewrite ?Hp. simpl. rewrite Hrw. simpl.
    eexists. split; [reflexivity|]. simpl. auto 10.
  - simpl in Hfirst. apply negb_true_iff in Hfirst.
    destruct (calculate_image_hash_eq first e Hfirst) as [e1 [Hcalc Hd1]].
    eff. simpl. rewrite ?Hp. simpl. rewrite Hcalc. simpl.
    rewrite Hd1, Hrw. simpl.
    eexists. split; [reflexivity|]. simpl. rewrite Hd1. auto 10.
Qed.

Lemma c_int_like (n : Z) : c_int n -> int_like (JInt n) = true.
Proof.
  unfold c_int, int_like. intros [H1 H2].
  apply andb_true_iff. split; apply Z.leb_le; assumption.
Qed.

Lemma qt_size_c_int (n : Z) : qt_size n -> c_int n.
Proof. unfold qt_size, c_int. lia. Qed.

Lemma qt_bound_size (n : Z) : qt_size n -> qt_bound n = n.
Proof. unfold qt_size, qt_bound. lia. Qed.

(** X6.  Settings round trip: what [save_settings] writes for a window,
    [load_settings] reads back into any window: the same always-on-top
    value and the same position and size, provided the disk is writable,
    the first image path can be examined by the file system (the
    fingerprint is computed from it before anything is written), the
    position fits a C int and the size is one the toolkit gives a
    widget (0 to 16777215). *)
Theorem X6_saved_settings_load_back (v : Viewer) (u : FloatWindow) :
  read_only (disk (env v)) = false ->
  first_reachable (disk (env v)) (temp_image_paths (self v)) = true ->
  geometry_fits (self v) ->
  exists v1 u',
    save_settings v = (Returned tt, v1) /\
    load_settings {| self := u; env := env v1 |} = (Returned tt, u') /\
    always_on_top (self u') = always_on_top (self v) /\
    win_x (self u') = win_x (self v) /\
    win_y (self u') = win_y (self v) /\
    win_width (self u') = win_width (self v) /\
    win_height (self u') = win_height (self v).
Proof.
  intros Hrw Hfirst [Hx [Hy [Hw Hh]]].
  destruct (save_settings_spec v Hrw Hfirst) as [v1 [Hsave [_ [Hfile _]]]].
  set (fields := saved_fields (self v)
                   (first_hash (disk (env v)) (temp_image_paths (self v)))) in *.
  assert (Hf : stored_fields
                 (settings_json (disk (env {| self := u; env := env v1 |})))
               = Some fields) by (simpl; rewrite Hfile; reflexivity).
  assert (Ht : geometry_typed fields = true).
  { unfold geometry_typed.
    replace (dict_get "width" (JInt 600) fields)
      with (JInt (win_width (self v))) by reflexivity.
    replace (dict_get "height" (JInt 600) fields)
      with (JInt (win_height (self v))) by reflexivity.
    replace (dict_get "x" (JInt 100) fields)
      with (JInt (win_x (self v))) by reflexivity.
    replace (dict_get "y" (JInt 100) fields)
      with (JInt (win_y (self v))) by reflexivity.
    rewrite !c_int_like by (assumption || (apply qt_size_c_int; assumption)).
    reflexivity. }
  destruct (load_settings_spec _ fields Hf Ht)
    as [u' [Hload [Ha [Hw' [Hh' [Hx' [Hy' _]]]]]]].
  exists v1, u'. split; [exact Hsave|]. split; [exact Hload|].
  rewrite Ha, Hw', Hh', Hx', Hy'.
  replace (dict_get "width" (JInt 600) fields)
    with (JInt (win_width (self v))) by reflexivity.
  replace (dict_get "height" (JInt 600) fields)
    with (JInt (win_height (self v))) by reflexivity.
  simpl. rewrite !qt_bound_size by assumption.
  repeat split; reflexivity.
Qed.

Lemma X6_saved_settings_load_back_witness :
  exists v1 u',
    save_settings browsed_viewer = (Returned tt, v1) /\
    load_settings {| self := new_window []; env := env v1 |} = (Returned tt, u') /\
    win_width (self u') = 600.
Proof.
  destruct (X6_saved_settings_load_back browsed_viewer (new_window []))
    as [v1 [u' [Hsave [Hload [_ [_ [_ [Hw _]]]]]]]].
  - reflexivity.
  - reflexivity.
  - unfold geometry_fits, c_int, qt_size. vm_compute. repeat split; discriminate.
  - exists v1, u'. split; [exact Hsave|]. split; [exact Hload|].
    rewrite Hw. reflexivity.
Defined.

(** X7.  Warm re-attach: when a window showing the list of the path
    store, all of whose files exist and decode, saves its settings, the
    fingerprint it stores is the one the session restorer computes, so
    that with the files unchanged the restorer takes the stored list at
    index 0 into whatever window runs it. *)
Theorem X7_saved_fingerprint_is_accepted
        (v : Viewer) (u : FloatWindow) (first : string) (rest : list string) :
  read_only (disk (env v)) = false ->
  image_paths_json (disk (env v)) = Holds (Encodes (first :: rest)) ->
  temp_image_paths (self v) = first :: rest ->
  image_existence (disk (env v)) (first :: rest) = true ->
  exists v1 u',
    save_settings v = (Returned tt, v1) /\
    check_for_existing_images {| self := u; env := env v1 |} = (Returned tt, u') /\
    temp_image_paths (self u') = first :: rest /\
    current_index (self u') = 0.
Proof.
  intros Hrw Hstore Hp Hex.
  pose proof (image_existence_reachable _ _ Hex) as Hreach.
  assert (Hfirst : first_reachable (disk (env v)) (temp_image_paths (self v)) = true).
  { rewrite Hp. simpl in *. apply andb_true_iff in Hreach. tauto. }
  destruct (save_settings_spec v Hrw Hfirst) as [v1 [Hsave [_ [Hfile [Hs1 [Hi1 _]]]]]].
  rewrite Hp in Hfile. simpl in Hfile.
  set (fields := saved_fields (self v) (head_hash (disk (env v)) first)) in *.
  set (u0 := {| self := u; env := env v1 |}).
  assert (Hf : stored_fields (settings_json (disk (env u0))) = Some fields)
    by (simpl; rewrite Hfile; reflexivity).
  assert (Hs : image_paths_json (disk (env u0)) = Holds (Encodes (first :: rest)))
    by (simpl; rewrite Hs1; exact Hstore).
  assert (Hre : reachable (disk (env u0)) (first :: rest) = true)
    by (simpl env; rewrite (reachable_images _ _ _ Hi1); exact Hreach).
  destruct (check_for_existing_images_spec u0 fields (first :: rest) Hf Hs Hre)
    as [u' [Hrun [Hpi _]]].
  assert (Hr : restorable (disk (env u0)) (first :: rest)
                 (dict_get "first_image_hash" JNull fields) = true).
  { unfold restorable. simpl.
    rewrite (image_existence_images _ _ _ Hi1), Hex.
    rewrite (head_hash_images _ _ _ Hi1).
    unfold fields, saved_fields, dict_get. simpl.
    destruct (head_hash (disk (env v)) first) as [h|]; simpl.
    - unfold hash_ne, str_ne. rewrite String.eqb_refl. simpl.
      rewrite orb_true_r. reflexivity.
    - unfold hash_truthy. simpl. reflexivity. }
  rewrite Hr in Hpi. inversion Hpi.
  exists v1, u'. auto.
Qed.

Lemma X7_saved_fingerprint_is_accepted_witness :
  exists v1 u',
    save_settings synced_viewer = (Returned tt, v1) /\
    check_for_existing_images {| self := new_window []; env := env v1 |}
      = (Returned tt, u') /\
    temp_image_paths (self u') = ["/tmp/a.png"; "/tmp/b.png"].
Proof.
  destruct (X7_saved_fingerprint_is_accepted
              synced_viewer (new_window []) "/tmp/a.png" ["/tmp/b.png"])
    as [v1 [u' [Hsave [Hrun [Hp _]]]]]; try reflexivity.
  exists v1, u'. auto.
Defined.

(** What [save_always_on_top_state] does on a writable disk whose
    settings file offers fields. *)
Lemma save_always_on_top_state_spec (v : Viewer) (fields : list (string * json)) :
  stored_fields (settings_json (disk (env v))) = Some fields ->
  read_only (disk (env v)) = false ->
  exists v',
    save_always_on_top_state v = (Returned tt, v') /\
    self v' = self v /\
    settings_json (disk (env v')) =
      Holds (Encodes (JObj (setitem "always_on_top" (always_on_top (self v))
                                    fields))) /\
    image_paths_json (disk (env v')) = image_paths_json (disk (env v)) /\
    read_only (disk (env v')) = false.
Proof.
  intros Hf Hrw. destruct v as [w e]. simpl in *.
  unfold save_always_on_top_state, safe_read_file, safe_write_file, json_loads,
    json_dumps, empty_object_text.
  eff. simpl.
  destruct (settings_json (disk e)) as [| |[|doc]] eqn:Hs; simpl in *;
    try (inversion Hf; subst fields; simpl; rewrite Hrw; simpl;
         eexists; split; [reflexivity|]; simpl; rewrite ?Hs; auto 10).
  destruct doc; try discriminate. inversion Hf; subst fields0.
  simpl. rewrite Hrw. simpl.
  eexists. split; [reflexivity|]. simpl. auto 10.
Qed.

(** X8.  [save_always_on_top_state] is a read-merge-write: on a writable
    disk the settings file afterwards holds the window's always-on-top
    value under its key and every other stored field as it was (no
    field at all to start from when the file was absent, unreadable or
    unparsable); the window itself is untouched. *)
Theorem X8_saving_the_pin_keeps_other_fields
        (v : Viewer) (fields : list (string * json)) :
  stored_fields (settings_json (disk (env v))) = Some fields ->
  read_only (disk (env v)) = false ->
  exists v' fields',
    save_always_on_top_state v = (Returned tt, v') /\
    self v' = self v /\
    settings_json (disk (env v')) = Holds (Encodes (JObj fields')) /\
    dict_get "always_on_top" JNull fields' = always_on_top (self v) /\
    forall key default,
      key <> "always_on_top" ->
      dict_get key default fields' = dict_get key default fields.
Proof.
  intros Hf Hrw.
  destruct (save_always_on_top_state_spec v fields Hf Hrw)
    as [v' [Hrun [Hself [Hfile _]]]].
  exists v', (setitem "always_on_top" (always_on_top (self v)) fields).
  split; [exact Hrun|]. split; [exact Hself|]. split; [exact Hfile|].
  split; [apply dict_get_setitem_same|].
  intros key default Hne. apply dict_get_setitem_other. exact Hne.
Qed.

Lemma X8_saving_the_pin_keeps_other_fields_witness :
  exists v' fields',
    save_always_on_top_state
      (with_settings (Holds (Encodes (JObj [("height", JInt 480)]))) idle_viewer)
      = (Returned tt, v') /\
    settings_json (disk (env v')) = Holds (Encodes (JObj fields')) /\
    dict_get "height" JNull fields' = JInt 480.
Proof.
  destruct (X8_saving_the_pin_keeps_other_fields
              (with_settings (Holds (Encodes (JObj [("height", JInt 480)])))
                             idle_viewer)
              [("height", JInt 480)] eq_refl eq_refl)
    as [v' [fields' [Hrun [_ [Hfile [_ Hother]]]]]].
  exists v', fields'. split; [exact Hrun|]. split; [exact Hfile|].
  rewrite Hother; [reflexivity|discriminate].
Defined.

Lemma toggle_always_on_top_spec (v : Viewer) (fields : list (string * json)) :
  stored_fields (settings_json (disk (env v))) = Some fields ->
  read_only (disk (env v)) = false ->
  exists v',
    toggle_always_on_top v = (Returned tt, v') /\
    self v' =
      set_always_on_top (JBool (negb (truthy (always_on_top (self v))))) (self v) /\
    settings_json (disk (env v')) =
      Holds (Encodes (JObj (setitem "always_on_top"
                                    (JBool (negb (truthy (always_on_top (self v)))))
                                    fields))) /\
    read_only (disk (env v')) = false.
Proof.
  intros Hf Hrw.
  set (flag := JBool (negb (truthy (always_on_top (self v))))).
  set (v1 := {| self := set_always_on_top flag (self v); env := env v |}).
  destruct (save_always_on_top_state_spec v1 fields Hf Hrw)
    as [v' [Hrun [Hself [Hfile [_ Hrw']]]]].
  exists v'. split.
  - unfold toggle_always_on_top.
    assert (Hattr : attr always_on_top v = (Returned (always_on_top (self v)), v))
      by reflexivity.
    rewrite (bind_returned _ _ _ _ _ Hattr).
    rewrite bind_on_self. fold flag. fold v1.
    rewrite (bind_returned _ _ _ _ _ (setChecked_ok v1 eq_refl)).
    rewrite (bind_returned _ _ _ _ _ (update_always_on_top_ok v1 eq_refl)).
    exact Hrun.
  - split; [exact Hself|]. split; [exact Hfile|exact Hrw'].
Qed.

(** X9.  Toggling the pin: on a writable disk whose settings file offers
    fields, [toggle_always_on_top] returns normally, sets the attribute
    to the negation of its truth value and writes that value to the
    file; toggling twice brings the truth value back, in the window and
    in the file, with the list and the index never touched. *)
Theorem X9_toggling_twice_restores_the_pin
        (v : Viewer) (fields : list (string * json)) :
  stored_fields (settings_json (disk (env v))) = Some fields ->
  read_only (disk (env v)) = false ->
  exists v1 v2 fields2,
    toggle_always_on_top v = (Returned tt, v1) /\
    always_on_top (self v1) = JBool (negb (truthy (always_on_top (self v)))) /\
    toggle_always_on_top v1 = (Returned tt, v2) /\
    always_on_top (self v2) = JBool (truthy (always_on_top (self v))) /\
    settings_json (disk (env v2)) = Holds (Encodes (JObj fields2)) /\
    dict_get "always_on_top" JNull fields2 = JBool (truthy (always_on_top (self v))) /\
    temp_image_paths (self v2) = temp_image_paths (self v) /\
    current_index (self v2) = current_index (self v).
Proof.
  intros Hf Hrw.
  destruct (toggle_always_on_top_spec v fields Hf Hrw)
    as [v1 [Hrun1 [Hself1 [Hfile1 Hrw1]]]].
  assert (Hf1 : stored_fields (settings_json (disk (env v1)))
                = Some (setitem "always_on_top"
                          (JBool (negb (truthy (always_on_top (self v))))) fields))
    by (rewrite Hfile1; reflexivity).
  destruct (toggle_always_on_top_spec v1 _ Hf1 Hrw1)
    as [v2 [Hrun2 [Hself2 [Hfile2 _]]]].
  assert (Hflag : JBool (negb (truthy (always_on_top (self v1))))
                  = JBool (truthy (always_on_top (self v)))).
  { rewrite Hself1. simpl. unfold truthy at 1. rewrite negb_involutive. reflexivity. }
  eexists v1, v2, _. split; [exact Hrun1|].
  split; [rewrite Hself1; reflexivity|].
  split; [exact Hrun2|].
  split; [rewrite Hself2; simpl; exact Hflag|].
  split; [exact Hfile2|].
  split; [rewrite dict_get_setitem_same; exact Hflag|].
  rewrite Hself2, Hself1. split; reflexivity.
Qed.

Lemma X9_toggling_twice_restores_the_pin_witness :
  exists v1 v2,
    toggle_always_on_top idle_viewer = (Returned tt, v1) /\
    always_on_top (self v1) = JBool true /\
    toggle_always_on_top v1 = (Returned tt, v2) /\
    always_on_top (self v2) = JBool false.
Proof.
  destruct (X9_toggling_twice_restores_the_pin idle_viewer [] eq_refl eq_refl)
    as [v1 [v2 [f2 [H1 [Ha1 [H2 [Ha2 _]]]]]]].
  exists v1, v2. split; [exact H1|]. split; [exact Ha1|].
  split; [exact H2|exact Ha2].
Defined.

(** X10.  When the settings file parses to something that is no object,
    the item assignment in [save_always_on_top_state] raises TypeError
    outside every handler: [toggle_always_on_top] raises it after the
    attribute was flipped, and the file is left as it was, so window and
    file disagree from then on. *)
Theorem X10_toggle_raises_on_non_object_settings (v : Viewer) (doc : json) :
  settings_json (disk (env v)) = Holds (Encodes doc) ->
  (forall fields, doc <> JObj fields) ->
  toggle_always_on_top v =
    (Raised TypeError,
     {| self := set_always_on_top (JBool (negb (truthy (always_on_top (self v)))))
                                  (self v);
        env := env v |}).
Proof.
  intros Hs Hdoc.
  unfold toggle_always_on_top, always_on_top_action_setChecked,
    update_always_on_top, save_always_on_top_state, safe_read_file, json_loads.
  eff. simpl. rewrite Hs. simpl.
  destruct doc; try reflexivity.
  exfalso. apply (Hdoc fields). reflexivity.
Qed.

Lemma X10_toggle_raises_on_non_object_settings_witness :
  fst (toggle_always_on_top array_settings_viewer) = Raised TypeError /\
  always_on_top (self (snd (toggle_always_on_top array_settings_viewer)))
    = JBool true /\
  settings_json (disk (env (snd (toggle_always_on_top array_settings_viewer))))
    = Holds (Encodes (JList [])).
Proof.
  rewrite (X10_toggle_raises_on_non_object_settings
             array_settings_viewer (JList []) eq_refl).
  - repeat split.
  - discriminate.
Defined.

(** ** Closing, copying, saving, unbound keys *)

(** [save_settings] returns normally on any disk, and never touches the
    window or the path store, as soon as the first path of the list can
    be examined. *)
Lemma save_settings_returns (v : Viewer) :
  first_reachable (disk (env v)) (temp_image_paths (self v)) = true ->
  exists v1,
    save_settings v = (Returned tt, v1) /\
    self v1 = self v /\
    image_paths_json (disk (env v1)) = image_paths_json (disk (env v)) /\
    (read_only (disk (env v)) = false ->
     settings_json (disk (env v1)) =
       Holds (Encodes (JObj (saved_fields (self v)
                               (first_hash (disk (env v))
                                           (temp_image_paths (self v))))))).
Proof.
  intro Hfirst.
  destruct (read_only (disk (env v))) eqn:Hro.
  - destruct v as [w e]. simpl in *.
    unfold save_settings, safe_write_file, json_dumps.
    destruct (temp_image_paths w) as [|first rest] eqn:Hp.
    + eff. simpl. rewrite ?Hp. simpl. rewrite Hro. simpl.
      eexists. split; [reflexivity|]. simpl.
      split; [reflexivity|]. split; [reflexivity|]. discriminate.
    + simpl in Hfirst. apply negb_true_iff in Hfirst.
      destruct (calculate_image_hash_eq first e Hfirst) as [e1 [Hcalc Hd1]].
      eff. simpl. rewrite ?Hp. simpl. rewrite Hcalc. simpl.
      rewrite Hd1, Hro. simpl.
      eexists. split; [reflexivity|]. simpl. rewrite Hd1.
      split; [reflexivity|]. split; [reflexivity|]. discriminate.
  - destruct (save_settings_spec v Hro Hfirst)
      as [v1 [Hrun [Hself [Hfile [Hstore _]]]]].
    exists v1. auto.
Qed.

(** The fingerprint is computed before the [try]: a first path that
    cannot be examined makes [save_settings] raise, with nothing
    written. *)
Lemma save_settings_raises (v : Viewer) :
  first_reachable (disk (env v)) (temp_image_paths (self v)) = false ->
  save_settings v = (Raised OSError, v).
Proof.
  intro Hfirst. destruct v as [w e]. simpl in *.
  unfold save_settings.
  destruct (temp_image_paths w) as [|first rest] eqn:Hp; [discriminate|].
  simpl in Hfirst. apply negb_false_iff in Hfirst.
  eff. simpl. rewrite ?Hp. simpl.
  rewrite (calculate_image_hash_raises first e Hfirst). reflexivity.
Qed.

(** What [closeEvent] leaves behind when the fingerprint can be taken. *)
Lemma closeEvent_spec (v : Viewer) :
  first_reachable (disk (env v)) (temp_image_paths (self v)) = true ->
  exists v',
    closeEvent v = (Returned tt, v') /\
    closing (self v') = true /\
    timer_active (self v') = false /\
    pixmap_cache (self v') = [] /\
    scaled_image_cache (self v') = [] /\
    temp_image_paths (self v') = temp_image_paths (self v) /\
    current_index (self v') = current_index (self v) /\
    image_paths_json (disk (env v')) = image_paths_json (disk (env v)) /\
    (read_only (disk (env v)) = false ->
     settings_json (disk (env v')) =
       Holds (Encodes (JObj (saved_fields (self v)
                               (first_hash (disk (env v))
                                           (temp_image_paths (self v))))))) /\
    (forall ls, update_image ls v' = (Returned tt, v')).
Proof.
  intro Hfirst.
  set (v0 := {| self := set_closing true (self v); env := env v |}).
  assert (Hfirst0 : first_reachable (disk (env v0)) (temp_image_paths (self v0)) = true)
    by (destruct v as [w e]; exact Hfirst).
  destruct (save_settings_returns v0 Hfirst0) as [v1 [Hsave [Hself [Hstore Hfile]]]].
  eexists. split.
  { unfold closeEvent, clear_cache.
    rewrite bind_on_self. fold v0.
    rewrite (bind_returned _ _ _ _ _ Hsave).
    rewrite !bind_on_self. unfold in_env, log_message, modify. simpl.
    reflexivity. }
  destruct v1 as [w1 e1]. cbn [self env] in *. subst w1. unfold v0 in *.
  cbn [self env] in *. simpl.
  repeat (split; [reflexivity|]).
  split; [exact Hstore|]. split; [exact Hfile|].
  intro ls. apply update_image_closing. reflexivity.
Qed.

(** [closeEvent] when the fingerprint cannot be taken: the exception of
    [save_settings] leaves it after [closing] has been set and before
    anything else has been done. *)
Lemma closeEvent_raises (v : Viewer) :
  first_reachable (disk (env v)) (temp_image_paths (self v)) = false ->
  closeEvent v =
    (Raised OSError, {| self := set_closing true (self v); env := env v |}).
Proof.
  intro Hfirst.
  set (v0 := {| self := set_closing true (self v); env := env v |}).
  assert (Hfirst0 : first_reachable (disk (env v0)) (temp_image_paths (self v0)) = false)
    by (destruct v as [w e]; exact Hfirst).
  unfold closeEvent. rewrite bind_on_self. fold v0.
  unfold bind at 1. rewrite (save_settings_raises v0 Hfirst0). reflexivity.
Qed.

(** X11.  Closing.  [closeEvent] first marks the window closing and
    calls [save_settings], which takes the fingerprint of the first
    image outside any [try].  When the first path of the list can be
    examined by the file system (or the list is empty), [closeEvent]
    returns normally: the window is marked closing, its timer is stopped
    and both caches are empty, the list, the index and the path store
    are as before, the settings have been written if the disk takes
    them, and [update_image] no longer does anything.  When the first
    path cannot be examined, [closeEvent] raises [OSError] with the
    window marked closing and nothing else done: the timer is not
    stopped, the caches are not cleared and nothing is written or
    logged. *)
Theorem X11_close_stops_the_window (v : Viewer) :
  (first_reachable (disk (env v)) (temp_image_paths (self v)) = true ->
   exists v',
     closeEvent v = (Returned tt, v') /\
     closing (self v') = true /\
     timer_active (self v') = false /\
     pixmap_cache (self v') = [] /\
     scaled_image_cache (self v') = [] /\
     temp_image_paths (self v') = temp_image_paths (self v) /\
     current_index (self v') = current_index (self v) /\
     image_paths_json (disk (env v')) = image_paths_json (disk (env v)) /\
     (read_only (disk (env v)) = false ->
      settings_json (disk (env v')) =
        Holds (Encodes (JObj (saved_fields (self v)
                                (first_hash (disk (env v))
                                            (temp_image_paths (self v))))))) /\
     (forall ls, update_image ls v' = (Returned tt, v'))) /\
  (first_reachable (disk (env v)) (temp_image_paths (self v)) = false ->
   closeEvent v =
     (Raised OSError, {| self := set_closing true (self v); env := env v |})).
Proof.
  split; [apply closeEvent_spec|apply closeEvent_raises].
Qed.

Lemma X11_close_stops_the_window_witness :
  (exists v',
     closeEvent browsed_viewer = (Returned tt, v') /\
     closing (self v') = true /\ timer_active (self v') = false /\
     pixmap_cache (self v') = [] /\ scaled_image_cache (self v') = []) /\
  closeEvent unreachable_viewer =
    (Raised OSError, {| self := set_closing true (self unreachable_viewer);
                        env := env unreachable_viewer |}).
Proof.
  split.
  - destruct (proj1 (X11_close_stops_the_window browsed_viewer) eq_refl)
      as [v' [Hrun [Hc [Ht [Hp [Hs _]]]]]].
    exists v'. auto.
  - exact (proj2 (X11_close_stops_the_window unreachable_viewer) eq_refl).
Defined.

(** What [copy_to_clipboard] does. *)
Lemma copy_to_clipboard_spec (v : Viewer) :
  exists v',
    copy_to_clipboard v = (Returned tt, v') /\
    self v' = self v /\
    disk (env v') = disk (env v) /\
    (~ (0 <= current_index (self v) < len (temp_image_paths (self v))) ->
     v' = v) /\
    (0 <= current_index (self v) < len (temp_image_paths (self v)) ->
     exists p,
       nth_error (temp_image_paths (self v)) (Z.to_nat (current_index (self v)))
         = Some p /\
       trace (env v') =
         Print "success" "Image copied to clipboard."
           :: ClipboardSet p :: trace (env v)).
Proof.
  destruct v as [w e]. unfold copy_to_clipboard. eff. simpl.
  destruct ((0 <=? current_index w) && (current_index w <? len (temp_image_paths w)))
    eqn:E.
  - apply andb_true_iff in E. destruct E as [E1 E2].
    apply Z.leb_le in E1. apply Z.ltb_lt in E2.
    destruct (getitem_nth (temp_image_paths w) (current_index w) (conj E1 E2))
      as [p [Hn Hg]].
    rewrite Hg. simpl.
    eexists. split; [reflexivity|]. simpl.
    split; [reflexivity|]. split; [reflexivity|].
    split; [intro H; exfalso; apply H; split; assumption|].
    intros _. exists p. split; [exact Hn|reflexivity].
  - eexists. split; [reflexivity|]. simpl.
    split; [reflexivity|]. split; [reflexivity|]. split; [reflexivity|].
    intros [H1 H2]. apply Z.leb_le in H1. apply Z.ltb_lt in H2.
    rewrite H1, H2 in E. discriminate.
Qed.

(** X12.  [copy_to_clipboard] never raises and never changes the window
    or the disk: with the index outside the list (an empty list
    included) it does nothing at all, and otherwise it puts the image at
    the index on the clipboard and logs it. *)
Theorem X12_copy_is_guarded (v : Viewer) :
  exists v',
    copy_to_clipboard v = (Returned tt, v') /\
    self v' = self v /\
    disk (env v') = disk (env v) /\
    (~ (0 <= current_index (self v) < len (temp_image_paths (self v))) ->
     v' = v) /\
    (0 <= current_index (self v) < len (temp_image_paths (self v)) ->
     exists p,
       nth_error (temp_image_paths (self v)) (Z.to_nat (current_index (self v)))
         = Some p /\
       trace (env v') =
         Print "success" "Image copied to clipboard."
           :: ClipboardSet p :: trace (env v)).
Proof. exact (copy_to_clipboard_spec v). Qed.

(** What [save_image] does. *)
Lemma save_image_spec (v : Viewer) :
  exists v',
    save_image v = (Returned tt, v') /\
    self v' = self v /\
    (~ (0 <= current_index (self v) < len (temp_image_paths (self v))) ->
     v' = v) /\
    (0 <= current_index (self v) < len (temp_image_paths (self v)) ->
     exists p,
       nth_error (temp_image_paths (self v)) (Z.to_nat (current_index (self v)))
         = Some p /\
       trace (env v') =
         if (save_dialog (env v) =? "")%string
         then Print "info" "Save operation canceled." :: trace (env v)
         else Print "success" ("Image saved to " ++ save_dialog (env v))
                :: SavedAs p (save_dialog (env v)) :: trace (env v)).
Proof.
  destruct v as [w e]. unfold save_image. eff. simpl.
  destruct ((0 <=? current_index w) && (current_index w <? len (temp_image_paths w)))
    eqn:E.
  - apply andb_true_iff in E. destruct E as [E1 E2].
    apply Z.leb_le in E1. apply Z.ltb_lt in E2.
    destruct (getitem_nth (temp_image_paths w) (current_index w) (conj E1 E2))
      as [p [Hn Hg]].
    rewrite Hg. simpl.
    destruct (save_dialog e =? "")%string eqn:Ed; simpl;
      eexists; (split; [reflexivity|]); simpl;
      (split; [reflexivity|]);
      (split; [intro H; exfalso; apply H; split; assumption|]);
      intros _; exists p; (split; [exact Hn|reflexivity]).
  - eexists. split; [reflexivity|]. simpl.
    split; [reflexivity|]. split; [reflexivity|].
    intros [H1 H2]. apply Z.leb_le in H1. apply Z.ltb_lt in H2.
    rewrite H1, H2 in E. discriminate.
Qed.


(** X14.  A key that no branch of [keyPressEvent] answers (any key but
    Escape and the arrows, with S, C and T counting only when Control
    alone is held) changes nothing. *)
Theorem X14_unbound_key_is_ignored (ev : QKeyEvent) (ls : QSize) (v : Viewer) :
  unbound ev = true ->
  keyPressEvent ev ls v = (Returned tt, v).
Proof.
  destruct ev as [k m]. unfold unbound, keyPressEvent. simpl.
  destruct k, m; simpl; intro H; try discriminate; reflexivity.
Qed.

Lemma X14_unbound_key_is_ignored_witness :
  keyPressEvent (press Key_S) (600, 600) sample_viewer = (Returned tt, sample_viewer).
Proof.
  apply (X14_unbound_key_is_ignored (press Key_S) (600, 600) sample_viewer).
  reflexivity.
Defined.

(** ** The caches *)

(** X15.  A cache hit: when the image on display is in the scaled cache
    and the label still has the size recorded at the last scaling,
    [update_image] shows the cached pixmap without reading the file,
    scaling or logging: the world and both caches are as before. *)
Theorem X15_cache_hit_renders_without_io
        (ls last : QSize) (v : Viewer) (p : string) (cached : QPixmap) :
  closing (self v) = false ->
  current_path (self v) = Some p ->
  assoc p (scaled_image_cache (self v)) = Some cached ->
  current_label_size (self v) = Some last ->
  QSize_eqb last ls = true ->
  exists v',
    update_image ls v = (Returned tt, v') /\
    env v' = env v /\
    label_pixmap (self v') = Some cached /\
    scaled_image_cache (self v') = scaled_image_cache (self v) /\
    pixmap_cache (self v') = pixmap_cache (self v).
Proof.
  intros Hc Hp Hhit Hlast Heq.
  pose proof (current_path_nonempty _ _ Hp) as Hne.
  unfold current_path in Hp.
  destruct v as [w e]. destruct w. simpl in *. subst closing0.
  destruct temp_image_paths0 as [|p0 rest]; [congruence|].
  unfold update_image. eff. simpl.
  destruct (getitem_nth (p0 :: rest) (current_index0 mod len (p0 :: rest)))
    as [x [Hn Hg]].
  { apply Z.mod_pos_bound. apply len_pos. congruence. }
  rewrite Hp in Hn. inversion Hn; subst x. rewrite Hg. simpl.
  rewrite Hhit, Hlast, Heq. simpl.
  break_match; eexists; (split; [reflexivity|]); simpl; auto.
Qed.

Lemma X15_cache_hit_renders_without_io_witness :
  exists v',
    update_image (600, 600) browsed_viewer = (Returned tt, v') /\
    env v' = env browsed_viewer.
Proof.
  destruct (X15_cache_hit_renders_without_io
              (600, 600) (600, 600) browsed_viewer "/tmp/a.png"
              (Scaling (FromFile "/tmp/a.png") 600 600))
    as [v' [Hrun [Henv _]]]; try reflexivity.
  exists v'. split; [exact Hrun|exact Henv].
Defined.

(** X16.  A stale entry: when the image on display is cached but the
    label's size is not the one recorded (or none was recorded),
    [update_image] scales the image again and replaces the entry in
    place: the cache keeps its keys and their order, and holds the new
    scaling under the path. *)
Theorem X16_stale_entry_is_replaced_in_place
        (ls : QSize) (v : Viewer) (p : string) (old px : QPixmap) :
  closing (self v) = false ->
  current_path (self v) = Some p ->
  assoc p (scaled_image_cache (self v)) = Some old ->
  match current_label_size (self v) with
  | Some last => QSize_eqb last ls
  | None => false
  end = false ->
  QPixmap_load (disk (env v)) p = Some px ->
  exists v',
    update_image ls v = (Returned tt, v') /\
    keys (scaled_image_cache (self v')) = keys (scaled_image_cache (self v)) /\
    assoc p (scaled_image_cache (self v')) =
      Some (Scaling px (win_width (self v)) (win_height (self v))) /\
    trace (env v') =
      Scaled p (win_width (self v)) (win_height (self v)) :: trace (env v) /\
    current_label_size (self v') = Some ls.
Proof.
  intros Hc Hp Hhit Hstale Hload.
  pose proof (current_path_nonempty _ _ Hp) as Hne.
  assert (Hin : In p (keys (scaled_image_cache (self v)))).
  { destruct (in_dec string_dec p (keys (scaled_image_cache (self v))))
      as [H|H]; [exact H|].
    apply assoc_None_keys in H. congruence. }
  unfold current_path in Hp.
  destruct v as [w e]. destruct w. simpl in *. subst closing0.
  destruct temp_image_paths0 as [|p0 rest]; [congruence|].
  unfold update_image. eff. simpl.
  destruct (getitem_nth (p0 :: rest) (current_index0 mod len (p0 :: rest)))
    as [x [Hn Hg]].
  { apply Z.mod_pos_bound. apply len_pos. congruence. }
  rewrite Hp in Hn. inversion Hn; subst x. rewrite Hg. simpl.
  rewrite Hhit, Hstale. simpl. rewrite Hload. simpl.
  break_match; eexists; (split; [reflexivity|]); simpl;
    (split; [apply keys_setitem_hit; exact Hin|]);
    (split; [apply assoc_setitem_same|]); auto.
Qed.

Lemma X16_stale_entry_is_replaced_in_place_witness :
  exists v',
    update_image (800, 600) browsed_viewer = (Returned tt, v') /\
    keys (scaled_image_cache (self v')) = ["/tmp/a.png"; "/tmp/b.png"].
Proof.
  destruct (X16_stale_entry_is_replaced_in_place
              (800, 600) browsed_viewer "/tmp/a.png"
              (Scaling (FromFile "/tmp/a.png") 600 600) (FromFile "/tmp/a.png"))
    as [v' [Hrun [Hkeys _]]]; try reflexivity.
  exists v'. split; [exact Hrun|]. rewrite Hkeys. reflexivity.
Defined.

(** X17.  Below the bound [load_pixmap] caches what it decodes and
    serves it from the cache afterwards: the first call on a decodable
    path returns its pixmap and stores it under the path, and a second
    call returns the same pixmap and changes nothing. *)
Theorem X17_load_pixmap_caches_below_the_bound
        (path : string) (px : QPixmap) (v : Viewer) :
  assoc path (pixmap_cache (self v)) = None ->
  QPixmap_load (disk (env v)) path = Some px ->
  len (pixmap_cache (self v)) < max_cache_size (self v) ->
  exists v',
    load_pixmap path v = (Returned (Some px), v') /\
    pixmap_cache (self v') = pixmap_cache (self v) ++ [(path, px)] /\
    env v' = env v /\
    load_pixmap path v' = (Returned (Some px), v').
Proof.
  intros Hmiss Hload Hroom.
  assert (Hset : setitem path px (pixmap_cache (self v))
                 = pixmap_cache (self v) ++ [(path, px)]).
  { clear Hload Hroom. induction (pixmap_cache (self v)) as [|[k x] d IH];
      [reflexivity|].
    simpl in *. destruct (path =? k)%string; [discriminate|].
    rewrite (IH Hmiss). reflexivity. }
  eexists. split.
  { unfold load_pixmap. eff. rewrite Hmiss. simpl. rewrite Hload. simpl.
    destruct (len (pixmap_cache (self v)) >=? max_cache_size (self v)) eqn:E.
    - rewrite Z.geb_leb in E. apply Z.leb_le in E. lia.
    - simpl. reflexivity. }
  simpl. split; [exact Hset|]. split; [reflexivity|].
  unfold load_pixmap. eff. simpl. rewrite assoc_setitem_same. reflexivity.
Qed.

Lemma X17_load_pixmap_caches_below_the_bound_witness :
  exists v',
    load_pixmap "/tmp/a.png" sample_viewer
      = (Returned (Some (FromFile "/tmp/a.png")), v') /\
    pixmap_cache (self v') = [("/tmp/a.png", FromFile "/tmp/a.png")].
Proof.
  destruct (X17_load_pixmap_caches_below_the_bound
              "/tmp/a.png" (FromFile "/tmp/a.png") sample_viewer)
    as [v' [Hrun [Hcache _]]].
  - reflexivity.
  - reflexivity.
  - reflexivity.
  - exists v'. split; [exact Hrun|]. rewrite Hcache. reflexivity.
Defined.

(** ** What every event keeps true *)

(** The scaled cache after [update_image]: as before, or with the path
    on display set. *)
Lemma update_image_cache_cases (ls : QSize) (v : Viewer) :
  exists v',
    update_image ls v = (Returned tt, v') /\
    (scaled_image_cache (self v') = scaled_image_cache (self v) \/
     exists p px,
       current_path (self v) = Some p /\
       scaled_image_cache (self v') = setitem p px (scaled_image_cache (self v))).
Proof.
  destruct v as [w e]. destruct w. unfold update_image, current_path. eff. simpl.
  destruct closing0; simpl.
  { eexists. split; [reflexivity|]. left. reflexivity. }
  destruct temp_image_paths0 as [|p rest]; simpl.
  { eexists. split; [reflexivity|]. left. reflexivity. }
  destruct (getitem_nth (p :: rest) (current_index0 mod len (p :: rest)))
    as [x [Hn Hg]].
  { apply Z.mod_pos_bound. apply len_pos. congruence. }
  rewrite Hg. simpl.
  repeat (break_match; simpl); eexists; (split; [reflexivity|]); simpl;
    solve [left; reflexivity | right; eexists; eexists; split; [exact Hn|reflexivity]].
Qed.

Lemma current_path_In (w : FloatWindow) (p : string) :
  current_path w = Some p -> In p (temp_image_paths w).
Proof. unfold current_path. intro H. exact (nth_error_In _ _ H). Qed.

Lemma update_image_session_ok (ls : QSize) (v : Viewer) :
  session_ok (self v) -> session_ok (self (snd (update_image ls v))).
Proof.
  intros [Hi [Hnd Hincl]].
  destruct (update_image_frame ls v) as [v' [Hrun [Hp [_ [_ [_ Hidx]]]]]].
  destruct (update_image_cache_cases ls v) as [v'' [Hrun' Hcache]].
  rewrite Hrun in Hrun'. inversion Hrun'; subst v''. clear Hrun'.
  rewrite Hrun. simpl. unfold session_ok. rewrite Hp.
  split; [|split].
  - intro Hne. rewrite Hidx.
    destruct (closing (self v)); simpl; [exact (Hi Hne)|].
    destruct (temp_image_paths (self v)) as [|q r] eqn:E; [congruence|].
    apply Z.mod_pos_bound. apply len_pos. congruence.
  - destruct Hcache as [Hc|[p [px [_ Hc]]]]; rewrite Hc;
      [exact Hnd|apply keys_setitem_NoDup; exact Hnd].
  - destruct Hcache as [Hc|[p [px [Hcur Hc]]]]; rewrite Hc; [exact Hincl|].
    apply keys_setitem_incl; [exact Hincl|apply current_path_In; exact Hcur].
Qed.

Lemma session_ok_reloaded (P : list string) (v : Viewer) :
  session_ok (self (reloaded P v)).
Proof.
  unfold session_ok. simpl. split; [|split].
  - intro Hne. pose proof (len_pos _ Hne). lia.
  - constructor.
  - intros x [].
Qed.

(** A tick returns normally, and either leaves the window as it was or
    re-renders from a reloaded window. *)
Lemma check_for_updates_cases (ls : QSize) (v : Viewer) :
  exists v',
    check_for_updates ls v = (Returned tt, v') /\
    (self v' = self v \/
     exists P e, v' = snd (update_image ls (reloaded P {| self := self v; env := e |}))).
Proof.
  destruct v as [w e].
  unfold check_for_updates, safe_read_file, json_loads, clear_cache, empty_list_text.
  eff. simpl.
  destruct (image_paths_json (disk e)) as [| |[|P]] eqn:Hs; simpl;
    repeat (rewrite Hs; simpl).
  - eexists. split; [reflexivity|]. left. reflexivity.
  - destruct (list_ne [] (temp_image_paths w)).
    + match goal with
      | |- exists _, update_image ls ?s = _ /\ _ =>
          destruct (update_image_frame ls s) as [v' [Hrun _]];
          exists v'; split; [exact Hrun|]; right;
          exists [], (env s);
          change (v' = snd (update_image ls s)); rewrite Hrun; reflexivity
      end.
    + eexists. split; [reflexivity|]. left. reflexivity.
  - eexists. split; [reflexivity|]. left. reflexivity.
  - destruct (list_ne P (temp_image_paths w)).
    + match goal with
      | |- exists _, update_image ls ?s = _ /\ _ =>
          destruct (update_image_frame ls s) as [v' [Hrun _]];
          exists v'; split; [exact Hrun|]; right;
          exists P, (env s);
          change (v' = snd (update_image ls s)); rewrite Hrun; reflexivity
      end.
    + eexists. split; [reflexivity|]. left. reflexivity.
Qed.

Lemma check_for_updates_session_ok (ls : QSize) (v : Viewer) :
  session_ok (self v) -> session_ok (self (snd (check_for_updates ls v))).
Proof.
  intro Hok.
  destruct (check_for_updates_cases ls v) as [v' [Hrun [Hsame|[P [e Hre]]]]];
    rewrite Hrun; simpl.
  - rewrite Hsame. exact Hok.
  - rewrite Hre. apply update_image_session_ok. apply session_ok_reloaded.
Qed.

Lemma resizeEvent_session_ok (ls : QSize) (v : Viewer) :
  session_ok (self v) -> session_ok (self (snd (resizeEvent ls v))).
Proof.
  intros [Hi _].
  change (resizeEvent ls v)
    with (update_image ls {| self := set_scaled_image_cache [] (self v);
                             env := env v |}).
  apply update_image_session_ok. unfold session_ok. simpl.
  split; [exact Hi|]. split; [constructor|intros x []].
Qed.

(** Whatever its outcome, toggling the pin leaves the list, the index
    and the scaled cache alone. *)
Lemma toggle_always_on_top_frame (v : Viewer) :
  temp_image_paths (self (snd (toggle_always_on_top v))) = temp_image_paths (self v) /\
  current_index (self (snd (toggle_always_on_top v))) = current_index (self v) /\
  scaled_image_cache (self (snd (toggle_always_on_top v)))
    = scaled_image_cache (self v).
Proof.
  destruct v as [w e].
  unfold toggle_always_on_top, always_on_top_action_setChecked,
    update_always_on_top, save_always_on_top_state, safe_read_file,
    safe_write_file, json_loads, json_dumps, as_bool.
  eff. simpl.
  destruct (settings_json (disk e)) as [| |[|doc]]; simpl;
    try destruct doc; simpl;
    destruct (read_only (disk e)); simpl; auto.
Qed.

(** Whatever its outcome, closing keeps the session in shape. *)
Lemma closeEvent_session_ok (v : Viewer) :
  session_ok (self v) -> session_ok (self (snd (closeEvent v))).
Proof.
  intro Hok.
  destruct (first_reachable (disk (env v)) (temp_image_paths (self v))) eqn:Hfirst.
  - destruct (closeEvent_spec v Hfirst)
      as [v' [Hrun [_ [_ [_ [Hs [Hp [Hi _]]]]]]]].
    rewrite Hrun. simpl. destruct Hok as [Hidx _].
    unfold session_ok. rewrite Hs, Hp, Hi.
    split; [exact Hidx|]. split; [constructor|intros x []].
  - rewrite (closeEvent_raises v Hfirst). simpl. exact Hok.
Qed.

Lemma keyPressEvent_session_ok (ev : QKeyEvent) (ls : QSize) (v : Viewer) :
  session_ok (self v) -> session_ok (self (snd (keyPressEvent ev ls v))).
Proof.
  intro Hok.
  destruct (navigation_step (key ev)) as [step|] eqn:Hnav.
  - rewrite (navigation_key_press ev ls step Hnav). eff.
    destruct (temp_image_paths (self v)) as [|q r] eqn:Hp.
    + simpl. exact Hok.
    + rewrite mod__ok.
      2:{ assert (0 < len (q :: r)) by (apply len_pos; congruence). lia. }
      apply update_image_session_ok.
      destruct Hok as [_ [Hnd Hincl]]. unfold session_ok. simpl.
      split; [|split; assumption].
      intros _. rewrite Hp. apply Z.mod_pos_bound. apply len_pos. congruence.
  - destruct ev as [k m]. unfold keyPressEvent. simpl in *.
    destruct k; simpl; try discriminate.
    + apply closeEvent_session_ok. exact Hok.
    + destruct (is_Control m); simpl; [|exact Hok].
      destruct (save_image_spec v) as [v' [Hrun [Hself _]]].
      rewrite Hrun. simpl. rewrite Hself. exact Hok.
    + destruct (is_Control m); simpl; [|exact Hok].
      destruct (copy_to_clipboard_spec v) as [v' [Hrun [Hself _]]].
      rewrite Hrun. simpl. rewrite Hself. exact Hok.
    + destruct (is_Control m); simpl; [|exact Hok].
      destruct (toggle_always_on_top_frame v) as [Hp [Hi Hs]].
      unfold session_ok. rewrite Hp, Hi, Hs. exact Hok.
    + exact Hok.
Qed.

Lemma handle_session_ok (ev : event) (v : Viewer) :
  session_ok (self v) -> session_ok (self (snd (handle ev v))).
Proof.
  intro Hok. destruct ev as [ls|e ls|width height ls|]; simpl.
  - unfold bind, attr, gets. destruct (timer_active (self v)).
    + apply check_for_updates_session_ok. exact Hok.
    + exact Hok.
  - apply keyPressEvent_session_ok. exact Hok.
  - rewrite bind_on_self. apply resizeEvent_session_ok. exact Hok.
  - apply closeEvent_session_ok. exact Hok.
Qed.

Lemma run_session_ok (events : list event) (v : Viewer) :
  session_ok (self v) -> session_ok (self (snd (run events v))).
Proof.
  revert v. induction events as [|ev rest IH]; intros v Hok; [exact Hok|].
  simpl. unfold bind. pose proof (handle_session_ok ev v Hok) as Hstep.
  destruct (handle ev v) as [[[]|e] v1]; simpl in *.
  - apply IH. exact Hstep.
  - exact Hstep.
Qed.

(** X18.  Whatever events reach the window (ticks, key presses, resizes,
    a close), and whether or not one of them raises, the session keeps
    its shape: the index stays inside a non-empty list, the keys of the
    scaled cache stay distinct paths of the list on display, and so the
    scaled cache never holds more entries than the list has paths. *)
Theorem X18_events_keep_the_session_in_shape (events : list event) (v : Viewer) :
  session_ok (self v) ->
  session_ok (self (snd (run events v))) /\
  len (scaled_image_cache (self (snd (run events v))))
    <= len (temp_image_paths (self (snd (run events v)))).
Proof.
  intro Hok. pose proof (run_session_ok events v Hok) as Hafter.
  split; [exact Hafter|].
  destruct Hafter as [_ [Hnd Hincl]].
  pose proof (NoDup_incl_length Hnd Hincl) as Hlen.
  unfold keys in Hlen. rewrite length_map in Hlen. unfold len. lia.
Qed.

Lemma X18_events_keep_the_session_in_shape_witness :
  len (scaled_image_cache
         (self (snd (run [Tick (600, 600); KeyPress (press Key_Left) (600, 600)]
                         stale_viewer))))
  <= len (temp_image_paths
            (self (snd (run [Tick (600, 600); KeyPress (press Key_Left) (600, 600)]
                            stale_viewer)))).
Proof.
  apply (X18_events_keep_the_session_in_shape
           [Tick (600, 600); KeyPress (press Key_Left) (600, 600)] stale_viewer).
  unfold session_ok. simpl. split; [|split].
  - intros _. unfold len. simpl. lia.
  - constructor.
  - intros x [].
Defined.

(** ** The indicator and dragging *)

(** X19.  The indicator label is at least 100 wide and ten pixels per
    character of its text, 30 high, ten pixels from the top, and centred
    in the window to within a pixel; it lies inside the window as soon
    as the window is as wide as the label. *)
Theorem X19_indicator_is_centred (text_length : Z) (w : FloatWindow) :
  let size := fst (update_indicator_position text_length w) in
  let pos := snd (update_indicator_position text_length w) in
  100 <= fst size /\
  text_length * 10 <= fst size /\
  snd size = 30 /\
  snd pos = 10 /\
  -1 <= 2 * fst pos + fst size - win_width w <= 1 /\
  (fst size <= win_width w ->
   0 <= fst pos /\ fst pos + fst size <= win_width w).
Proof.
  unfold update_indicator_position. cbn [fst snd].
  set (nw := Z.max 100 (text_length * 10)).
  assert (H1 : 100 <= nw) by (unfold nw; lia).
  assert (H2 : text_length * 10 <= nw) by (unfold nw; lia).
  clearbody nw.
  pose proof (Z.div_mod (win_width w) 2 ltac:(lia)) as Hw.
  pose proof (Z.mod_pos_bound (win_width w) 2 ltac:(lia)) as Hwm.
  pose proof (Z.div_mod nw 2 ltac:(lia)) as Hn.
  pose proof (Z.mod_pos_bound nw 2 ltac:(lia)) as Hnm.
  repeat split; try lia.
Qed.

(** X20.  Dragging: after a press of the left button, a move of the
    mouse moves the window by the travel of the mouse since the press
    and changes nothing else; after the release, moves no longer move
    the window. *)
Theorem X20_drag_follows_the_mouse
        (pressed moved later : Z * Z) (g : Grip) (v : Viewer) :
  exists g1 v2,
    mousePressEvent LeftButton pressed g v = (Returned g1, v) /\
    mouseMoveEvent moved g1 v = (Returned g1, v2) /\
    win_x (self v2) = win_x (self v) + (fst moved - fst pressed) /\
    win_y (self v2) = win_y (self v) + (snd moved - snd pressed) /\
    self v2 = set_pos (win_x (self v2)) (win_y (self v2)) (self v) /\
    env v2 = env v /\
    exists g3,
      mouseReleaseEvent LeftButton g1 v2 = (Returned g3, v2) /\
      mouseMoveEvent later g3 v2 = (Returned g3, v2).
Proof.
  unfold mousePressEvent, mouseMoveEvent, mouseReleaseEvent. eff. simpl.
  eexists. eexists. split; [reflexivity|]. simpl.
  split; [reflexivity|]. simpl.
  split; [lia|]. split; [lia|]. split; [reflexivity|]. split; [reflexivity|].
  eexists. split; reflexivity.
Qed.

(** A grip that says dragging has an offset. *)
Lemma mouse_keeps_offset (ev : mouse_event) (g : Grip) (v : Viewer) :
  (dragging g = true -> offset g <> None) ->
  exists g' v',
    mouse ev g v = (Returned g', v') /\
    (dragging g' = true -> offset g' <> None) /\
    env v' = env v /\
    temp_image_paths (self v') = temp_image_paths (self v) /\
    current_index (self v') = current_index (self v).
Proof.
  intro Hok. destruct ev as [b p|p|b]; simpl;
    unfold mousePressEvent, mouseMoveEvent, mouseReleaseEvent; eff.
  - destruct (is_LeftButton b); simpl.
    + eexists. eexists. split; [reflexivity|]. simpl.
      split; [discriminate|]. auto.
    + eexists. eexists. split; [reflexivity|]. auto.
  - destruct (dragging g) eqn:Hd.
    + destruct (offset g) as [o|] eqn:Ho.
      * eexists. eexists. split; [reflexivity|]. simpl.
        split; [rewrite Ho; discriminate|]. auto.
      * exfalso. apply Hok; reflexivity.
    + eexists. eexists. split; [reflexivity|].
      split; [rewrite Hd; discriminate|]. auto.
  - destruct (is_LeftButton b); simpl.
    + eexists. eexists. split; [reflexivity|]. simpl.
      split; [discriminate|]. auto.
    + eexists. eexists. split; [reflexivity|]. auto.
Qed.

Lemma run_mouse_returns (events : list mouse_event) (g : Grip) (v : Viewer) :
  (dragging g = true -> offset g <> None) ->
  exists g' v',
    run_mouse events g v = (Returned g', v') /\
    env v' = env v /\
    temp_image_paths (self v') = temp_image_paths (self v) /\
    current_index (self v') = current_index (self v).
Proof.
  revert g v. induction events as [|ev rest IH]; intros g v Hok.
  - exists g, v. simpl. auto.
  - destruct (mouse_keeps_offset ev g v Hok) as [g1 [v1 [Hrun [Hok1 [He [Hp Hi]]]]]].
    destruct (IH g1 v1 Hok1) as [g' [v' [Hrun' [He' [Hp' Hi']]]]].
    exists g', v'. split.
    + simpl. rewrite (bind_returned _ _ _ _ _ Hrun). exact Hrun'.
    + rewrite He', Hp', Hi'. auto.
Qed.

(** X21.  No sequence of mouse events makes a handler raise: from the
    initial grip (not dragging, no offset) a move is only ever applied
    with an offset at hand; and the mouse never changes the world, the
    list or the index. *)
Theorem X21_mouse_events_never_raise (events : list mouse_event) (v : Viewer) :
  exists g' v',
    run_mouse events released v = (Returned g', v') /\
    env v' = env v /\
    temp_image_paths (self v') = temp_image_paths (self v) /\
    current_index (self v') = current_index (self v).
Proof.
  apply run_mouse_returns. simpl. discriminate.
Qed.

(** ** The viewer's main function *)

(** X22.  [run_float_window] never raises, whatever the files hold, and
    what it answers is fixed by the path store.  With the store absent
    it logs that no JSON file was found and builds no window; with
    content [json.loads] rejects it logs the invalid content and builds
    no window; in both cases it does nothing but log.  With a parsable
    store the window is built from the stored list: when the
    constructor returns, that window is the answer; when the constructor
    raises an exception [e], the answer is no window and the last thing
    done is the log line [ERROR in running float window e], at level
    [error], on top of what the constructor had done before it raised. *)
Theorem X22_viewer_main_never_raises (ls : QSize) (w : World) :
  let w0 := emit (Print "process" "Float Window subprocess started...") w in
  exists r w',
    run_float_window ls w = (Returned r, w') /\
    (image_paths_json (disk w) = Missing ->
     r = None /\
     w' = emit (Print "error" "No JSON file found for image paths.") w0) /\
    (image_paths_json (disk w) = Holds Malformed ->
     r = None /\
     w' = emit (Print "error" "Invalid JSON content in float_window_update.json.")
               w0) /\
    (forall P, image_paths_json (disk w) = Holds (Encodes P) ->
     match init_body ls {| self := new_window P; env := w0 |} with
     | (Returned _, v1) => r = Some (self v1) /\ w' = env v1
     | (Raised e, v1) =>
         r = None /\
         w' = emit (Print "error" ("ERROR in running float window " ++ exn_str e))
                   (env v1)
     end).
Proof.
  intro w0.
  destruct (image_paths_json (disk w)) as [| |[|P]] eqn:Hs.
  - eexists. eexists. split.
    + unfold run_float_window. eff. simpl. rewrite Hs. reflexivity.
    + split; [intros _; split; reflexivity|].
      split; [discriminate|intros P HP; discriminate].
  - unfold run_float_window at 1. unfold try_except.
    match goal with
    | |- exists _ _, match ?b with _ => _ end = _ /\ _ =>
        destruct b as [[r|e] w1]
    end.
    + exists r, w1. split; [reflexivity|].
      split; [discriminate|]. split; [discriminate|intros P HP; discriminate].
    + eexists. eexists. split; [reflexivity|].
      split; [discriminate|]. split; [discriminate|intros P HP; discriminate].
  - eexists. eexists. split.
    + unfold run_float_window, safe_read_file, json_loads. eff. simpl.
      repeat (rewrite Hs; simpl). reflexivity.
    + split; [discriminate|].
      split; [intros _; split; reflexivity|intros Q HQ; discriminate].
  - unfold run_float_window, safe_read_file, json_loads. eff. simpl.
    repeat (rewrite Hs; simpl). fold w0.
    destruct (init_body ls {| self := new_window P; env := w0 |})
      as [[[]|e] v1] eqn:Hinit.
    + eexists. eexists. split; [reflexivity|].
      split; [discriminate|]. split; [discriminate|].
      intros Q HQ. injection HQ as HQ. subst Q. rewrite Hinit.
      split; reflexivity.
    + eexists. eexists. split; [reflexivity|].
      split; [discriminate|]. split; [discriminate|].
      intros Q HQ. injection HQ as HQ. subst Q. rewrite Hinit.
      split; reflexivity.
Qed.

(** A settings file whose width is a string makes the constructor raise
    [TypeError]: no window is built and the error is the last thing
    logged. *)
Lemma X22_viewer_main_never_raises_witness :
  exists w',
    run_float_window (600, 600)
      (env (with_settings (Holds (Encodes (JObj [("width", JStr "bad")])))
                          sample_viewer))
    = (Returned None, w') /\
    hd_error (trace w') =
      Some (Print "error" "ERROR in running float window TypeError").
Proof.
  destruct (X22_viewer_main_never_raises (600, 600)
              (env (with_settings (Holds (Encodes (JObj [("width", JStr "bad")])))
                                  sample_viewer)))
    as [r [w' [Hrun [_ [_ Hinit]]]]].
  specialize (Hinit _ eq_refl). vm_compute in Hinit.
  destruct Hinit as [Hr Hw]. subst r. exists w'. split; [exact Hrun|].
  rewrite Hw. reflexivity.
Defined.

(** ** Edge behaviour of the readers *)

(** X23.  A path store that exists but cannot be read is taken for the
    empty list: [safe_read_file] logs a warning and hands back its
    default, so a tick of a viewer showing a non-empty list empties the
    list, clears both caches and puts the index at 0. *)
Theorem X23_unreadable_store_empties_the_session (ls : QSize) (v : Viewer) :
  image_paths_json (disk (env v)) = Locked ->
  temp_image_paths (self v) <> [] ->
  check_for_updates ls v =
    (Returned tt,
     reloaded []
       {| self := self v;
          env := emit (Print "warning"
                         ("Error reading " ++ JSON_FILE_PATH ++ ": OSError"))
                      (env v) |}).
Proof.
  intros Hs Hne.
  unfold check_for_updates, safe_read_file, json_loads, clear_cache, empty_list_text.
  eff. simpl. repeat (rewrite Hs; simpl).
  destruct (temp_image_paths (self v)) as [|q r] eqn:Hp; [congruence|].
  simpl. rewrite update_image_empty by reflexivity. reflexivity.
Qed.

Lemma X23_unreadable_store_empties_the_session_witness :
  temp_image_paths
    (self (snd (check_for_updates (600, 600) (with_store Locked synced_viewer))))
  = [].
Proof.
  rewrite (X23_unreadable_store_empties_the_session
             (600, 600) (with_store Locked synced_viewer)).
  - reflexivity.
  - reflexivity.
  - simpl. discriminate.
Defined.

(** X24.  Stepping onto an image that does not decode: the navigation
    key still moves the index, a warning is logged, and the label keeps
    the pixmap it showed; nothing is added to the scaled cache. *)
Theorem X24_broken_image_keeps_the_previous_picture
        (ev : QKeyEvent) (ls : QSize) (v : Viewer) (step : Z) (p : string) :
  navigation_step (key ev) = Some step ->
  closing (self v) = false ->
  nth_error (temp_image_paths (self v))
            (Z.to_nat ((current_index (self v) + step)
                       mod len (temp_image_paths (self v)))) = Some p ->
  assoc p (scaled_image_cache (self v)) = None ->
  QPixmap_load (disk (env v)) p = None ->
  exists v',
    keyPressEvent ev ls v = (Returned tt, v') /\
    current_index (self v') =
      (current_index (self v) + step) mod len (temp_image_paths (self v)) /\
    label_pixmap (self v') = label_pixmap (self v) /\
    scaled_image_cache (self v') = scaled_image_cache (self v) /\
    trace (env v') =
      Print "warning" ("Failed to load image: " ++ p) :: trace (env v).
Proof.
  intros Hk Hc Hn Hmiss Hload.
  assert (Hne : temp_image_paths (self v) <> []).
  { intro E. rewrite E in Hn. destruct (Z.to_nat _); discriminate. }
  pose proof (len_pos _ Hne) as Hlen.
  set (n := len (temp_image_paths (self v))) in *.
  set (i' := (current_index (self v) + step) mod n) in *.
  set (v1 := {| self := set_current_index i' (self v); env := env v |}).
  assert (Hrange : 0 <= i' < n) by (apply Z.mod_pos_bound; exact Hlen).
  assert (Hcur : current_path (self v1) = Some p).
  { unfold current_path. simpl. fold n. rewrite Z.mod_small by exact Hrange.
    exact Hn. }
  destruct (update_image_unloadable ls v1 p Hc Hcur Hmiss Hload)
    as [v' [Hrun [Hs [Ht Hl]]]].
  destruct (update_image_frame ls v1) as [v'' [Hrun' [_ [_ [_ [_ Hi]]]]]].
  rewrite Hrun in Hrun'. inversion Hrun'; subst v''.
  exists v'. split.
  { rewrite (navigation_key_press ev ls step Hk). eff. fold n.
    rewrite mod__ok by lia. exact Hrun. }
  split.
  { rewrite Hi. simpl. rewrite Hc. simpl.
    destruct (temp_image_paths (self v)); [congruence|].
    fold n. apply Z.mod_small. exact Hrange. }
  auto.
Qed.

(** A list whose second file is gone. *)
Lemma X24_broken_image_keeps_the_previous_picture_witness :
  exists v',
    keyPressEvent (press Key_Right) (600, 600)
      {| self := new_window ["/tmp/a.png"; "/tmp/gone.png"]; env := sample_world |}
      = (Returned tt, v') /\
    current_index (self v') = 1 /\
    label_pixmap (self v') = None.
Proof.
  destruct (X24_broken_image_keeps_the_previous_picture
              (press Key_Right) (600, 600)
              {| self := new_window ["/tmp/a.png"; "/tmp/gone.png"];
                 env := sample_world |} 1 "/tmp/gone.png")
    as [v' [Hrun [Hi [Hl _]]]]; try reflexivity.
  exists v'. split; [exact Hrun|]. split; [rewrite Hi; reflexivity|exact Hl].
Defined.

(** X25.  Settings that parse to something that is no object: the
    [get] of [load_settings] and of the session restorer raises
    AttributeError, which neither handles, before the window is touched. *)
Theorem X25_non_object_settings_raise (v : Viewer) (doc : json) :
  settings_json (disk (env v)) = Holds (Encodes doc) ->
  (forall fields, doc <> JObj fields) ->
  load_settings v = (Raised AttributeError, v) /\
  check_for_existing_images v = (Raised AttributeError, v).
Proof.
  intros Hs Hdoc. destruct v as [w e]. simpl in Hs.
  unfold load_settings, check_for_existing_images, safe_read_file, json_loads, get.
  eff. simpl. rewrite Hs. simpl.
  destruct doc; try (split; reflexivity).
  exfalso. apply (Hdoc fields). reflexivity.
Qed.

Lemma X25_non_object_settings_raise_witness :
  load_settings array_settings_viewer = (Raised AttributeError, array_settings_viewer).
Proof.
  destruct (X25_non_object_settings_raise array_settings_viewer (JList []) eq_refl)
    as [Hload _].
  - discriminate.
  - exact Hload.
Defined.
